(** * Student portal backend: a shallow embedding of the two servers

    The repository holds two versions of one Express application:
    - [src/backend/server.js] keeps uploaded files on the local disk
      (multer disk storage), and
    - [src/server.js] keeps them in a GridFS bucket of the database and
      only falls back to the disk for records that still carry a path.

    The person routes (students, faculty, admins) are the same in both
    files; the content routes (materials, question banks, updates) differ
    and are embedded once per server.  Collections are finite maps, the
    file system and the bucket are finite maps too, and every route
    handler is a function from the state before the request to the state
    after it and the response.  What a handler does not decide itself is
    an argument of it: what the database does to a write ([save_fault],
    [fault]), and the library functions it only calls ([path.join],
    [path.extname], [res.download]). *)

From stdpp Require Import gmap strings list fin_maps.
From Stdlib Require Import Ascii NArith Lia.

Local Open Scope string_scope.

#[local] Set Warnings "-clear-no-such-hyp".

(** ** JavaScript conventions shared by all handlers *)

Module Js.

(** [!s] for a value that is a string, [null] or [undefined]: only a
    non-empty string is truthy. *)
Definition truthy (s : option string) : bool :=
  match s with
  | Some (String _ _) => true
  | Some EmptyString => false
  | None => false
  end.

(** [a || b] on such values. *)
Definition or_else (a b : option string) : option string :=
  if truthy a then a else b.

End Js.

(** ** Person records: students, faculty, admins

    [POST /api/<role>], [POST /api/<role>/bulk] and
    [DELETE /api/<role>/delete/individual] are written three times in each
    server, once per model, with the same body up to the model and the
    wording of the messages.  Request bodies are taken as the routes expect
    them: a person is an object with a [userId], a batch is an array of
    persons. *)

Module People.

Inductive Role := Student | Faculty | Admin.

(** The union of the fields of [StudentSchema], [FacultySchema] and
    [AdminSchema]; [_id] and [createdAt] are not modelled.  A field that a
    document does not have is [None]. *)
Record Person := mkPerson {
  name : string;
  userId : string;
  password : string;
  phone : string;
  year : option string;
  department : option string;
  role : option string
}.

(** [userId: { type: String, unique: true }]: the unique index makes each
    collection a finite map from [userId] to the document. *)
Record Db := mkDb {
  students : gmap string Person;
  faculty : gmap string Person;
  admins : gmap string Person
}.

Definition collection (r : Role) (db : Db) : gmap string Person :=
  match r with
  | Student => students db
  | Faculty => faculty db
  | Admin => admins db
  end.

Definition set_collection (r : Role) (c : gmap string Person) (db : Db) : Db :=
  match r with
  | Student => mkDb c (faculty db) (admins db)
  | Faculty => mkDb (students db) c (admins db)
  | Admin => mkDb (students db) (faculty db) c
  end.

(** What [save()] can throw: the duplicate-key error of the unique index
    ([error.code === 11000]) or any other error, which carries a message
    and another code or none. *)
Inductive MongoError :=
| E11000
| OtherError (message : string).

(** The bodies passed to [res.json] by the person routes. *)
Inductive Payload :=
| Created (data : Person)
| BulkResult (addedCount : nat) (duplicates : list string) (data : list Person)
| Deleted (deletedCount : nat)
| Refused (message : string)
| Failed (error : string).

Definition success (p : Payload) : bool :=
  match p with
  | Created _ | BulkResult _ _ _ | Deleted _ => true
  | Refused _ | Failed _ => false
  end.

Record Response := mkResponse { status : nat; body : Payload }.

Definition json (p : Payload) : Response := mkResponse 200 p.

Definition already_exists (r : Role) : string :=
  match r with
  | Student => "Student ID already exists"
  | Faculty => "Faculty ID already exists"
  | Admin => "Admin ID already exists"
  end.

Definition not_found (r : Role) : string :=
  match r with
  | Student => "Student not found"
  | Faculty => "Faculty not found"
  | Admin => "Admin not found"
  end.

(** [new Model(data)]: the document mongoose builds from a body.  The
    schemas are strict, so a field that the schema of the role does not
    declare is dropped: [role] for a student, [year] and [role] for
    faculty, [year] and [department] for an admin. *)
Definition new_Model (r : Role) (data : Person) : Person :=
  match r with
  | Student =>
      mkPerson (name data) (userId data) (password data) (phone data)
        (year data) (department data) None
  | Faculty =>
      mkPerson (name data) (userId data) (password data) (phone data)
        None (department data) None
  | Admin =>
      mkPerson (name data) (userId data) (password data) (phone data)
        None None (role data)
  end.

(** [Model.deleteOne({ userId })]: the new collection and [deletedCount]. *)
Definition deleteOne (c : gmap string Person) (u : string)
  : gmap string Person * nat :=
  match c !! u with
  | Some _ => (delete u c, 1)
  | None => (c, 0)
  end.

(** [app.delete('/api/<role>/delete/individual')] *)
Definition delete_individual (r : Role) (db : Db) (query_userId : option string)
  : Db * Response :=
  if negb (Js.truthy query_userId) then
    (db, mkResponse 400 (Refused "User ID is required"))
  else
    let '(c, deletedCount) := deleteOne (collection r db) (default "" query_userId) in
    if (0 <? deletedCount)%nat
    then (set_collection r c db, json (Deleted deletedCount))
    else (set_collection r c db, json (Refused (not_found r))).

Section Backend.

(** The database may refuse a write for a reason of its own (a document
    that fails validation, a write that times out).  Which of the documents
    that one request saves meet such an error, and with which message, is
    the environment's choice for that request: [save_fault] belongs to one
    request, and the next request has its own. *)
Variable save_fault : Person → option string.

(** [document.save()], for the document [d] that [new Model(data)] has
    built. *)
Definition save (c : gmap string Person) (d : Person)
  : MongoError + gmap string Person :=
  match save_fault d with
  | Some m => inl (OtherError m)
  | None =>
      match c !! userId d with
      | Some _ => inl E11000
      | None => inr (<[userId d := d]> c)
      end
  end.

(** [app.post('/api/<role>')]: the answer carries the document, not the
    body. *)
Definition post (r : Role) (db : Db) (req_body : Person) : Db * Response :=
  let student := new_Model r req_body in
  match save (collection r db) student with
  | inr c => (set_collection r c db, json (Created student))
  | inl E11000 => (db, json (Refused (already_exists r)))
  | inl (OtherError m) => (db, mkResponse 500 (Failed m))
  end.

(** The [for (const data of list)] loop of the bulk routes, with its three
    accumulators: [results] collects the documents, [duplicates] the
    [userId]s of the bodies. *)
Fixpoint bulk_loop (r : Role) (c : gmap string Person) (items : list Person)
    (results : list Person) (duplicates : list string) (addedCount : nat)
  : gmap string Person * (list Person * list string * nat) :=
  match items with
  | [] => (c, (results, duplicates, addedCount))
  | data :: rest =>
      let student := new_Model r data in
      match save c student with
      | inr c' => bulk_loop r c' rest (results ++ [student]) duplicates (S addedCount)
      | inl E11000 => bulk_loop r c rest results (duplicates ++ [userId data]) addedCount
      | inl (OtherError _) => bulk_loop r c rest results duplicates addedCount
      end
  end.

(** [app.post('/api/<role>/bulk')] *)
Definition post_bulk (r : Role) (db : Db) (items : list Person) : Db * Response :=
  let '(c, (results, duplicates, addedCount)) :=
    bulk_loop r (collection r db) items [] [] 0 in
  (set_collection r c db, json (BulkResult addedCount duplicates results)).

(** *** Reading a batch without running it

    Three lists that say, from the documents of a batch ([new Model] of
    each item) and the set of [userId]s present when the first one is
    reached, what becomes of each: refused by
    the database for a reason of its own; colliding with a [userId] that is
    present when the item is reached (present at the start, or stored
    earlier in the same batch); stored. *)

Definition failing (items : list Person) : list Person :=
  filter (λ d, is_Some (save_fault d)) items.

Fixpoint collisions (present : gset string) (items : list Person) : list string :=
  match items with
  | [] => []
  | d :: rest =>
      match save_fault d with
      | Some _ => collisions present rest
      | None =>
          if decide (userId d ∈ present)
          then userId d :: collisions present rest
          else collisions ({[userId d]} ∪ present) rest
      end
  end.

Fixpoint stored (present : gset string) (items : list Person) : list Person :=
  match items with
  | [] => []
  | d :: rest =>
      match save_fault d with
      | Some _ => stored present rest
      | None =>
          if decide (userId d ∈ present)
          then stored present rest
          else d :: stored ({[userId d]} ∪ present) rest
      end
  end.

End Backend.

End People.

(** ** Content records, the file system, the bucket and the upload gate

    Everything here is common to the two servers. *)

Module Content.

Inductive Kind := Material | Question | Update.

#[global] Instance Kind_eq_dec : EqDecision Kind.
Proof. solve_decision. Defined.

(** [MaterialSchema], shared by the three models.  [fileId] exists only in
    the schema of [src/server.js]; the handlers of
    [src/backend/server.js] never read or write it.  [_id] is the key of
    the collection and [createdAt] is not modelled.  A field that is
    [null] or [undefined] is [None]. *)
Record Doc := mkDoc {
  title : option string;
  description : option string;
  year : option string;
  department : option string;
  fileName : option string;
  originalFileName : option string;
  filePath : option string;
  fileSize : option N;
  fileType : option string;
  fileId : option N;
  createdBy : option string
}.

(** What a path of the local disk names. *)
Inductive FsEntry :=
| File (bytes : list Byte.byte)
| Directory.

(** A file of the [uploads] bucket. *)
Record GridFile := mkGridFile {
  grid_filename : string;
  grid_bytes : list Byte.byte
}.

(** The state the content routes work on, as the servers have it once the
    connection to the database is open: the three collections (keyed by
    [_id], an ObjectId), the local disk and the files of the bucket.

    In [src/server.js] the variable [gfsBucket] is assigned when the
    connection opens, and no [findById] or [save] returns before that: a
    handler that holds a record it has read finds the variable set.  The
    tests [if (!gfsBucket)], which all come after such a read, therefore
    never take their branch, and the state has no flag for the variable. *)
Record World := mkWorld {
  materials : gmap N Doc;
  questions : gmap N Doc;
  updates : gmap N Doc;
  fsys : gmap string FsEntry;
  gridfs : gmap N GridFile
}.

Definition collection (k : Kind) (w : World) : gmap N Doc :=
  match k with
  | Material => materials w
  | Question => questions w
  | Update => updates w
  end.

Definition set_collection (k : Kind) (c : gmap N Doc) (w : World) : World :=
  match k with
  | Material => mkWorld c (questions w) (updates w) (fsys w) (gridfs w)
  | Question => mkWorld (materials w) c (updates w) (fsys w) (gridfs w)
  | Update => mkWorld (materials w) (questions w) c (fsys w) (gridfs w)
  end.

Definition set_fsys (f : gmap string FsEntry) (w : World) : World :=
  mkWorld (materials w) (questions w) (updates w) f (gridfs w).

Definition set_gridfs (g : gmap N GridFile) (w : World) : World :=
  mkWorld (materials w) (questions w) (updates w) (fsys w) g.

(** The value of a string field inside a template or a call, once the
    handler has checked that it is there. *)
Definition str (o : option string) : string := default "" o.

(** The double quote of [filename="..."]. *)
Definition dquote : string := String (ascii_of_nat 34) "".

(** *** Responses

    [Failed] and [CastFailed] are both [{ success: false, error:
    error.message }]: for an error with the given message, and for the
    [CastError] mongoose throws when [value] is no ObjectId, whose message
    names the value and the model in mongoose's own wording.  [Attachment]
    is a file sent by [res.download]. *)

Inductive Payload :=
| Saved (message : string) (data : Doc)
| Posted (data : Doc)
| Message (success : bool) (message : string)
| Failed (error : string)
| CastFailed (value : string) (model : Kind)
| Attachment (path : string) (filename : option string) (bytes : list Byte.byte)
| Stream (contentType disposition : string) (bytes : list Byte.byte)
| ErrorPage (message : string)
| NotFoundPage.

(** [Reply] is a response that reaches the client.  [NoReply] is a read
    stream that fails with nobody listening for its [error] event. *)
Inductive Response :=
| Reply (status : nat) (body : Payload)
| NoReply.

Definition status_of (r : Response) : option nat :=
  match r with
  | Reply s _ => Some s
  | NoReply => None
  end.

(** A client-error outcome is a 4xx answer. *)
Definition client_error (r : Response) : bool :=
  match r with
  | Reply s _ => ((400 <=? s) && (s <? 500))%nat
  | NoReply => false
  end.

(** *** Express: errors handed to [next]

    A middleware either lets the request through or hands an error to
    Express.  Neither server registers an error-handling middleware, so
    such an error reaches Express's default handler: it answers with the
    error's own [status] when that is a 4xx or 5xx code and with 500
    otherwise. *)
Record JsError := mkJsError {
  err_status : option nat;
  err_message : string
}.

(** [new Error(message)] *)
Definition Error (message : string) : JsError := mkJsError None message.

(** What a call inside the [try] of a handler can throw: the [CastError]
    of mongoose, or another error. *)
Inductive Thrown :=
| CastError (value : string) (model : Kind)
| Other (e : JsError).

(** [catch (error) { res.status(500).json({ success: false, error:
    error.message }); }], the [catch] of every handler. *)
Definition caught (e : Thrown) : Response :=
  match e with
  | CastError value model => Reply 500 (CastFailed value model)
  | Other e => Reply 500 (Failed (err_message e))
  end.

Inductive Outcome (A : Type) :=
| Next (a : A)
| Throw (e : JsError).
Arguments Next {A} a.
Arguments Throw {A} e.

Definition default_error_handler (e : JsError) : Response :=
  match err_status e with
  | Some s =>
      if ((400 <=? s) && (s <? 600))%nat
      then Reply s (ErrorPage (err_message e))
      else Reply 500 (ErrorPage (err_message e))
  | None => Reply 500 (ErrorPage (err_message e))
  end.

(** *** Multer: the part of the request it reads, and its gate *)

Record FilePart := mkFilePart {
  originalname : string;
  mimetype : string;
  content : list Byte.byte
}.

Record UploadReq := mkUploadReq {
  file_part : option FilePart;
  body_title : option string;
  body_description : option string;
  body_year : option string;
  body_department : option string;
  body_createdBy : option string
}.

Definition size_of (p : FilePart) : N := N.of_nat (length (content p)).

(** [limits: { fileSize: 50 * 1024 * 1024 }] *)
Definition fileSize_limit : N := 50 * 1024 * 1024.

Definition to_lower (c : ascii) : ascii :=
  let n := nat_of_ascii c in
  if ((65 <=? n) && (n <=? 90))%nat then ascii_of_nat (n + 32) else c.

Fixpoint lowercase (s : string) : string :=
  match s with
  | EmptyString => EmptyString
  | String c s' => String (to_lower c) (lowercase s')
  end.

(** [s] ends with [suffix]. *)
Fixpoint ends_with (suffix s : string) : bool :=
  String.eqb s suffix ||
  match s with
  | EmptyString => false
  | String _ s' => ends_with suffix s'
  end.

Definition allowed_extensions : list string :=
  ["pdf"; "doc"; "docx"; "ppt"; "pptx"; "xls"; "xlsx"; "txt";
   "jpg"; "jpeg"; "png"; "gif"; "mp4"; "mp3"; "zip"; "rar"].

(** [allowedTypes.test(file.originalname)] for
    [/\.(pdf|doc|docx|ppt|pptx|xls|xlsx|txt|jpg|jpeg|png|gif|mp4|mp3|zip|rar)$/i]:
    a dot and one of the extensions, in any letter case, at the very end
    of the name. *)
Definition allowedTypes_test (name : string) : bool :=
  existsb (λ ext, ends_with ("." ++ ext) (lowercase name)) allowed_extensions.

(** The error of [fileFilter] and the error multer raises when the file
    stream passes [limits.fileSize]. *)
Definition invalid_file_type : JsError :=
  Error "Invalid file type. Please upload educational content files.".

Definition file_too_large : JsError := Error "File too large".

(** The verdict of [fileFilter] and of the size limit on one file part.
    Multer asks [fileFilter] before it hands the stream to the storage
    engine, and removes what the engine has written when the stream passes
    the limit, so a refused file leaves nothing behind. *)
Definition gate (p : FilePart) : Outcome FilePart :=
  if negb (allowedTypes_test (originalname p)) then Throw invalid_file_type
  else if (fileSize_limit <? size_of p)%N then Throw file_too_large
  else Next p.

(** *** The local disk: [fs.existsSync], [fs.statSync], [fs.unlinkSync]
    and [fs.createReadStream] *)

Definition existsSync (fs : gmap string FsEntry) (p : string) : bool :=
  match fs !! p with
  | Some _ => true
  | None => false
  end.

(** [fs.statSync(p).isFile()], called on a path that exists. *)
Definition isFile (fs : gmap string FsEntry) (p : string) : bool :=
  match fs !! p with
  | Some (File _) => true
  | _ => false
  end.

(** [fs.createReadStream(p).pipe(res)] after the two [res.setHeader]
    calls: the bytes of a regular file go out with HTTP 200 under those
    headers; on anything else the stream emits [error], which nobody
    listens for, and no reply is sent. *)
Definition createReadStream_pipe (fs : gmap string FsEntry) (p : string)
    (contentType disposition : string) : Response :=
  match fs !! p with
  | Some (File bytes) => Reply 200 (Stream contentType disposition bytes)
  | _ => NoReply
  end.

(** [unlinkSync] removes a file and throws on a directory or a missing
    path. *)
Definition unlinkSync (fs : gmap string FsEntry) (p : string)
  : JsError + gmap string FsEntry :=
  match fs !! p with
  | Some (File _) => inr (delete p fs)
  | Some Directory =>
      inl (Error ("EISDIR: illegal operation on a directory, unlink '" ++ p ++ "'"))
  | None =>
      inl (Error ("ENOENT: no such file or directory, unlink '" ++ p ++ "'"))
  end.

(** *** The database calls of the content routes *)

(** [req.params.id].  [findById] and [findByIdAndDelete] first cast it to
    an ObjectId: the parameter either spells one, or it does not, and then
    the call throws a [CastError]. *)
Inductive IdParam :=
| ObjectId (oid : N)
| NotAnObjectId (value : string).

(** [await Model.findById(req.params.id)] *)
Definition findById (k : Kind) (w : World) (id : IdParam) : Thrown + option Doc :=
  match id with
  | ObjectId oid => inr (collection k w !! oid)
  | NotAnObjectId value => inl (CastError value k)
  end.

(** [materials], then [questions], then [updates]:
    [content = await Material.findById(id);
     if (!content) content = await Question.findById(id);
     if (!content) content = await Update.findById(id);] *)
Definition resolve (w : World) (id : IdParam) : Thrown + option Doc :=
  match findById Material w id with
  | inl e => inl e
  | inr (Some content) => inr (Some content)
  | inr None =>
      match findById Question w id with
      | inl e => inl e
      | inr (Some content) => inr (Some content)
      | inr None => findById Update w id
      end
  end.

(** The writes to a collection can fail for a reason of the database's own
    (a write that times out, a connection that drops).  Whether the write
    of a request meets such an error, and with which message, is the
    environment's choice for that request: the handlers that write take it
    as [fault].  The reads, once the id is cast, and the writes of the
    storage engines are taken to go through. *)

(** [await document.save()]: the document is stored under an [_id] new to
    its collection. *)
Definition save (k : Kind) (w : World) (doc : Doc) (fault : option string)
  : Thrown + World :=
  match fault with
  | Some message => inl (Other (Error message))
  | None =>
      inr (set_collection k (<[fresh (dom (collection k w)) := doc]> (collection k w)) w)
  end.

(** [await Model.findByIdAndDelete(req.params.id)] *)
Definition findByIdAndDelete (k : Kind) (w : World) (id : IdParam)
    (fault : option string) : Thrown + World :=
  match id with
  | NotAnObjectId value => inl (CastError value k)
  | ObjectId oid =>
      match fault with
      | Some message => inl (Other (Error message))
      | None => inr (set_collection k (delete oid (collection k w)) w)
      end
  end.

Definition uploaded_message (k : Kind) : string :=
  match k with
  | Material => "Material uploaded successfully"
  | Question => "Question bank uploaded successfully"
  | Update => "Update uploaded successfully"
  end.

Definition not_found_message (k : Kind) : string :=
  match k with
  | Material => "Material not found"
  | Question => "Question not found"
  | Update => "Update not found"
  end.

Definition deleted_message (k : Kind) : string :=
  match k with
  | Material => "Material deleted successfully"
  | Question => "Question deleted successfully"
  | Update => "Update deleted successfully"
  end.

(** *** The two variants of the file reference *)

Definition populated {A} (o : option A) : bool :=
  match o with
  | Some _ => true
  | None => false
  end.

Definition both_populated (d : Doc) : bool :=
  populated (fileId d) && populated (filePath d).

Definition exactly_one_populated (d : Doc) : bool :=
  xorb (populated (fileId d)) (populated (filePath d)).

(** No record of any of the three collections has both variants. *)
Definition exclusive (w : World) : Prop :=
  ∀ k id d, collection k w !! id = Some d → both_populated d = false.

(** The requests that upload, retrieve or delete content, each request
    that writes to a collection together with what the database does to
    that write. *)
Inductive Op :=
| Upload (k : Kind) (stamp : string) (req : UploadReq) (fault : option string)
| Download (id : IdParam)
| View (id : IdParam)
| Remove (k : Kind) (id : IdParam) (fault : option string).

End Content.

(** ** [src/backend/server.js]: files on the local disk *)

Module Disk.
Import Content.

(** [req.file] as multer's disk storage leaves it. *)
Record ReqFile := mkReqFile {
  part : FilePart;
  filename : string;
  path : string;
  size : N
}.

Section Server.

(** [uploadsDir = path.join(__dirname, 'uploads')], and Node's
    [path.join] and [path.extname], which the handlers only call. *)
Variable uploadsDir : string.
Variable path_join : string → string → string.
Variable path_extname : string → string.

(** Express's [res.download(path, filename)], which the download handler
    only calls: the answer it gives for the disk as it is.  Whether and how
    it sends a file is decided inside Express (its rules for names that
    start with a dot, for ranges and for conditional requests). *)
Variable res_download : gmap string FsEntry → string → option string → Response.

(** [multer.diskStorage({ destination, filename })]; [stamp] is
    [Date.now() + '-' + Math.round(Math.random() * 1E9)]. *)
Definition diskStorage (w : World) (stamp : string) (p : FilePart)
  : World * ReqFile :=
  let uniqueName := stamp ++ path_extname (originalname p) in
  let dest := path_join uploadsDir uniqueName in
  (set_fsys (<[dest := File (content p)]> (fsys w)) w,
   mkReqFile p uniqueName dest (size_of p)).

(** [upload.single('file')] *)
Definition upload_single (w : World) (stamp : string) (req : UploadReq)
  : World * Outcome (option ReqFile) :=
  match file_part req with
  | None => (w, Next None)
  | Some p =>
      match gate p with
      | Throw e => (w, Throw e)
      | Next p' => let '(w', f) := diskStorage w stamp p' in (w', Next (Some f))
      end
  end.

(** [app.post('/api/<kind>/upload', upload.single('file'), handler)].  By
    the time the handler saves the record multer has written the file: a
    save that throws leaves the file on the disk. *)
Definition upload (k : Kind) (w : World) (stamp : string) (req : UploadReq)
    (fault : option string) : World * Response :=
  match upload_single w stamp req with
  | (w1, Throw e) => (w1, default_error_handler e)
  | (w1, Next None) => (w1, Reply 400 (Message false "No file uploaded"))
  | (w1, Next (Some f)) =>
      let material := {|
        title := body_title req;
        description := body_description req;
        year := body_year req;
        department := body_department req;
        createdBy := body_createdBy req;
        fileName := Some (filename f);
        originalFileName := Some (originalname (part f));
        filePath := Some (path f);
        fileSize := Some (size f);
        fileType := Some (mimetype (part f));
        fileId := None
      |} in
      match save k w1 material fault with
      | inl e => (w1, caught e)
      | inr w2 => (w2, Reply 200 (Saved (uploaded_message k) material))
      end
  end.

(** [const filePath = content.filePath || path.join(uploadsDir, content.fileName)] *)
Definition served_path (content : Doc) : string :=
  if Js.truthy (filePath content) then str (filePath content)
  else path_join uploadsDir (str (fileName content)).

(** [app.get('/api/files/download/:id')] *)
Definition download (w : World) (id : IdParam) : Response :=
  match resolve w id with
  | inl e => caught e
  | inr None => Reply 404 (Message false "File not found")
  | inr (Some content) =>
      if negb (Js.truthy (fileName content)) then
        Reply 404 (Message false "No file attached to this content")
      else if negb (existsSync (fsys w) (served_path content)) then
        Reply 404 (Message false "File not found on server")
      else
        res_download (fsys w) (served_path content)
          (Js.or_else (originalFileName content) (fileName content))
  end.

(** [app.get('/api/files/view/:id')] *)
Definition view (w : World) (id : IdParam) : Response :=
  match resolve w id with
  | inl e => caught e
  | inr None => Reply 404 (Message false "File not found")
  | inr (Some content) =>
      if negb (Js.truthy (fileName content)) then
        Reply 404 (Message false "No file attached to this content")
      else if negb (existsSync (fsys w) (served_path content)) then
        Reply 404 (Message false "File not found on server")
      else
        createReadStream_pipe (fsys w) (served_path content)
          (str (Js.or_else (fileType content) (Some "application/octet-stream")))
          ("inline; filename=" ++ dquote
             ++ str (Js.or_else (originalFileName content) (fileName content))
             ++ dquote)
  end.

(** [app.delete('/api/<kind>/:id')]: [fs.unlinkSync] stands unguarded
    inside the handler's [try], so what it throws goes to the handler's
    [catch]; and the file is removed before the record, so a
    [findByIdAndDelete] that throws leaves the record without its file. *)
Definition remove (k : Kind) (w : World) (id : IdParam) (fault : option string)
  : World * Response :=
  match findById k w id with
  | inl e => (w, caught e)
  | inr None => (w, Reply 404 (Message false (not_found_message k)))
  | inr (Some material) =>
      if Js.truthy (filePath material) && existsSync (fsys w) (str (filePath material)) then
        match unlinkSync (fsys w) (str (filePath material)) with
        | inl e => (w, caught (Other e))
        | inr fs' =>
            let w1 := set_fsys fs' w in
            match findByIdAndDelete k w1 id fault with
            | inl e => (w1, caught e)
            | inr w2 => (w2, Reply 200 (Message true (deleted_message k)))
            end
        end
      else
        match findByIdAndDelete k w id fault with
        | inl e => (w, caught e)
        | inr w2 => (w2, Reply 200 (Message true (deleted_message k)))
        end
  end.

(** One request, and a sequence of them. *)
Definition step (w : World) (op : Op) : World * Response :=
  match op with
  | Upload k stamp req fault => upload k w stamp req fault
  | Download id => (w, download w id)
  | View id => (w, view w id)
  | Remove k id fault => remove k w id fault
  end.

Definition run (w : World) (ops : list Op) : World :=
  foldl (λ w op, (step w op).1) w ops.

End Server.

End Disk.

(** ** [src/server.js]: files in the GridFS bucket [uploads] *)

Module Gridfs.
Import Content.

(** [req.file] as multer-gridfs-storage leaves it: the [id] of the new
    bucket file (an ObjectId, so always truthy), its [filename], the
    [metadata.originalname] set by the [file] callback, [contentType] and
    [size]. *)
Record ReqFile := mkReqFile {
  part : FilePart;
  id : N;
  filename : string;
  metadata_originalname : string;
  contentType : option string;
  size : N
}.

(** [new GridFsStorage({ url, file })]; [stamp] is
    [Date.now()-Math.round(Math.random() * 1E9)]. *)
Definition gridFsStorage (w : World) (stamp : string) (p : FilePart)
  : World * ReqFile :=
  let name := stamp ++ "-" ++ originalname p in
  let oid := fresh (dom (gridfs w)) in
  (set_gridfs (<[oid := mkGridFile name (content p)]> (gridfs w)) w,
   mkReqFile p oid name (originalname p) (Some (mimetype p)) (size_of p)).

(** [upload.single('file')] *)
Definition upload_single (w : World) (stamp : string) (req : UploadReq)
  : World * Outcome (option ReqFile) :=
  match file_part req with
  | None => (w, Next None)
  | Some p =>
      match gate p with
      | Throw e => (w, Throw e)
      | Next p' => let '(w', f) := gridFsStorage w stamp p' in (w', Next (Some f))
      end
  end.

(** [app.post('/api/<kind>/upload', upload.single('file'), handler)].
    [gridFileId] is [req.file.id || ...], that is [req.file.id];
    [req.file.originalName] is never set, so the last alternatives of
    [originalFileName] are [originalname] and [filename] in all three
    routes.  By the time the handler saves the record the storage engine
    has written the file to the bucket: a save that throws leaves the file
    there. *)
Definition upload (k : Kind) (w : World) (stamp : string) (req : UploadReq)
    (fault : option string) : World * Response :=
  match upload_single w stamp req with
  | (w1, Throw e) => (w1, default_error_handler e)
  | (w1, Next None) => (w1, Reply 400 (Message false "No file uploaded"))
  | (w1, Next (Some f)) =>
      let gridFileId := id f in
      let gridFilename := filename f in
      let originalFileName :=
        Js.or_else (Some (metadata_originalname f))
          (Js.or_else (Some (originalname (part f))) (Some gridFilename)) in
      let fileType :=
        Js.or_else (contentType f)
          (Js.or_else (Some (mimetype (part f))) (Some "application/octet-stream")) in
      let material := {|
        title := body_title req;
        description := body_description req;
        year := body_year req;
        department := body_department req;
        createdBy := body_createdBy req;
        fileName := Some gridFilename;
        originalFileName := originalFileName;
        filePath := None;
        fileSize := Some (size f);
        fileType := fileType;
        fileId := Some gridFileId
      |} in
      match save k w1 material fault with
      | inl e => (w1, caught e)
      | inr w2 => (w2, Reply 200 (Saved (uploaded_message k) material))
      end
  end.

(** [app.post('/api/<kind>')]: [new Model(req.body).save()], with whatever
    fields of the schema the JSON body carries. *)
Definition post (k : Kind) (w : World) (req_body : Doc) (fault : option string)
  : World * Response :=
  match save k w req_body fault with
  | inl e => (w, caught e)
  | inr w1 => (w1, Reply 200 (Posted req_body))
  end.

(** The name put in [Content-Disposition] when streaming from the bucket:
    [content.originalFileName || content.fileName || 'file']. *)
Definition shown_name (content : Doc) : string :=
  str (Js.or_else (originalFileName content)
         (Js.or_else (fileName content) (Some "file"))).

(** The bucket branch of download and view, reached with the record in
    hand, hence with [gfsBucket] set.  [openDownloadStream] of an id the
    bucket does not hold emits [error], answered with a 404. *)
Definition stream_from_bucket (disposition : string) (w : World)
    (content : Doc) (fileObjectId : N) : Response :=
  match gridfs w !! fileObjectId with
  | Some f =>
      Reply 200
        (Stream (str (Js.or_else (fileType content) (Some "application/octet-stream")))
           (disposition ++ "; filename=" ++ dquote ++ shown_name content ++ dquote)
           (grid_bytes f))
  | None => Reply 404 (Message false "File not found on server")
  end.

Section Server.

(** Express's [res.download(path, filename)], as for the disk server. *)
Variable res_download : gmap string FsEntry → string → option string → Response.

(** [app.get('/api/files/download/:id')] *)
Definition download (w : World) (id : IdParam) : Response :=
  match resolve w id with
  | inl e => caught e
  | inr None => Reply 404 (Message false "File not found")
  | inr (Some content) =>
      match fileId content with
      | Some fid => stream_from_bucket "attachment" w content fid
      | None =>
          if Js.truthy (filePath content) && existsSync (fsys w) (str (filePath content)) then
            if isFile (fsys w) (str (filePath content)) then
              res_download (fsys w) (str (filePath content))
                (Js.or_else (originalFileName content) (fileName content))
            else Reply 404 (Message false "File not found on server")
          else Reply 404 (Message false "File not found on server")
      end
  end.

(** [app.get('/api/files/view/:id')] *)
Definition view (w : World) (id : IdParam) : Response :=
  match resolve w id with
  | inl e => caught e
  | inr None => Reply 404 (Message false "File not found")
  | inr (Some content) =>
      match fileId content with
      | Some fid => stream_from_bucket "inline" w content fid
      | None =>
          if Js.truthy (filePath content) && existsSync (fsys w) (str (filePath content)) then
            if isFile (fsys w) (str (filePath content)) then
              createReadStream_pipe (fsys w) (str (filePath content))
                (str (Js.or_else (fileType content) (Some "application/octet-stream")))
                ("inline; filename=" ++ dquote
                   ++ str (Js.or_else (originalFileName content) (fileName content))
                   ++ dquote)
            else Reply 404 (Message false "File not found on server")
          else Reply 404 (Message false "File not found on server")
      end
  end.

(** [deleteGridFSFileById], called with the id of a record in hand, hence
    with [gfsBucket] set: [gfsBucket.delete] throws for an id the bucket
    does not hold, and the [catch] only warns. *)
Definition deleteGridFSFileById (w : World) (fileObjectId : N) : World :=
  match gridfs w !! fileObjectId with
  | Some _ => set_gridfs (delete fileObjectId (gridfs w)) w
  | None => w
  end.

(** [app.delete('/api/<kind>/:id')]: here [fs.unlinkSync] has a
    [try { ... } catch (e) { /* ignore */ }] of its own.  The file is
    removed before the record, so a [findByIdAndDelete] that throws leaves
    the record without its file. *)
Definition remove (k : Kind) (w : World) (id : IdParam) (fault : option string)
  : World * Response :=
  match findById k w id with
  | inl e => (w, caught e)
  | inr None => (w, Reply 404 (Message false (not_found_message k)))
  | inr (Some material) =>
      let w1 :=
        match fileId material with
        | Some fid => deleteGridFSFileById w fid
        | None =>
            if Js.truthy (filePath material) && existsSync (fsys w) (str (filePath material)) then
              match unlinkSync (fsys w) (str (filePath material)) with
              | inr fs' => set_fsys fs' w
              | inl _ => w
              end
            else w
        end in
      match findByIdAndDelete k w1 id fault with
      | inl e => (w1, caught e)
      | inr w2 => (w2, Reply 200 (Message true (deleted_message k)))
      end
  end.

(** One request, and a sequence of them. *)
Definition step (w : World) (op : Op) : World * Response :=
  match op with
  | Upload k stamp req fault => upload k w stamp req fault
  | Download id => (w, download w id)
  | View id => (w, view w id)
  | Remove k id fault => remove k w id fault
  end.

Definition run (w : World) (ops : list Op) : World :=
  foldl (λ w op, (step w op).1) w ops.

End Server.

End Gridfs.

(** ** Queries built from optional request fields *)

Module Query.

(** [if (q) query.field = q]: a field of the request that is truthy must
    equal the field of the document; any other value of it filters
    nothing. *)
Definition field_matches (q v : option string) : bool :=
  if Js.truthy q then bool_decide (v = q) else true.

End Query.

(** ** Login, listing and deletion by filter of persons

    These routes are the same in both servers. *)

Module Accounts.
Import People.

(** The fields [POST /api/auth/login] reads from the body. *)
Record LoginBody := mkLoginBody {
  login_userId : string;
  login_password : string;
  userType : string;
  login_year : option string;
  login_department : option string
}.

(** [{ success: true, user: { ...user.toObject(), type: userType } }] or
    [{ success: false, message }]; both are sent with [res.json], that is
    with HTTP 200. *)
Inductive LoginPayload :=
| LoggedIn (user : Person) (type : string)
| LoginRefused (message : string).

(** The value of [userType] each branch of the login tests for. *)
Definition role_name (r : Role) : string :=
  match r with
  | Student => "student"
  | Faculty => "faculty"
  | Admin => "admin"
  end.

(** The document the three branches on [userType] look up.  Only the
    student branch adds [year] and [department] to the query. *)
Definition login_user (db : Db) (b : LoginBody) : option Person :=
  if String.eqb (userType b) "student" then
    match students db !! login_userId b with
    | Some u =>
        if Query.field_matches (login_year b) (year u)
           && Query.field_matches (login_department b) (department u)
        then Some u else None
    | None => None
    end
  else if String.eqb (userType b) "faculty" then faculty db !! login_userId b
  else if String.eqb (userType b) "admin" then admins db !! login_userId b
  else None.

(** [app.post('/api/auth/login')] *)
Definition login (db : Db) (b : LoginBody) : nat * LoginPayload :=
  match login_user db b with
  | Some u =>
      if String.eqb (password u) (login_password b)
      then (200, LoggedIn u (userType b))
      else (200, LoginRefused "Invalid credentials")
  | None => (200, LoginRefused "Invalid credentials")
  end.

(** [app.get('/api/students')]: the documents [Student.find(query)]
    returns, as the part of the collection they make up (the order of the
    array is not modelled). *)
Definition get_students (db : Db) (query_year query_department : option string)
  : gmap string Person :=
  filter (λ kv, Query.field_matches query_year (year kv.2) = true
                ∧ Query.field_matches query_department (department kv.2) = true)
    (students db).

(** [Model.deleteMany(filter)]: what is left, and [deletedCount]. *)
Definition deleteMany (P : Person → Prop) `{!∀ p, Decision (P p)}
    (c : gmap string Person) : gmap string Person * nat :=
  (filter (λ kv, ¬ P kv.2) c, size (filter (λ kv, P kv.2) c)).

(** [app.delete('/api/students/delete')] *)
Definition delete_students (db : Db) (query_year query_department : option string)
  : Db * Response :=
  if negb (Js.truthy query_year) || negb (Js.truthy query_department) then
    (db, mkResponse 400 (Refused "Year and department are required"))
  else
    let '(c, deletedCount) :=
      deleteMany (λ p, year p = query_year ∧ department p = query_department)
        (students db) in
    (set_collection Student c db, json (Deleted deletedCount)).

(** [app.delete('/api/faculty/delete')] *)
Definition delete_faculty (db : Db) (query_department : option string)
  : Db * Response :=
  if negb (Js.truthy query_department) then
    (db, mkResponse 400 (Refused "Department is required"))
  else
    let '(c, deletedCount) :=
      deleteMany (λ p, department p = query_department) (faculty db) in
    (set_collection Faculty c db, json (Deleted deletedCount)).

(** [app.delete('/api/admin/delete')] *)
Definition delete_admins (db : Db) (query_role : option string) : Db * Response :=
  if negb (Js.truthy query_role) then
    (db, mkResponse 400 (Refused "Role is required"))
  else
    let '(c, deletedCount) :=
      deleteMany (λ p, role p = query_role) (admins db) in
    (set_collection Admin c db, json (Deleted deletedCount)).

End Accounts.

(** ** Listing content by year *)

Module Listing.
Import Content.

(** [app.get('/api/<kind>/year/:year')]:
    [query = { year: req.params.year };
     if (department) query.department = department;]
    The result is the part of the collection [find(query)] returns (the
    order of the array is not modelled). *)
Definition by_year (k : Kind) (w : World) (param_year : string)
    (query_department : option string) : gmap N Doc :=
  filter (λ kv, year kv.2 = Some param_year
                ∧ Query.field_matches query_department (department kv.2) = true)
    (collection k w).

End Listing.

(** ** Attendance *)

Module Attendance.

(** [AttendanceSchema]; [date] is the time in milliseconds. *)
Record Entry := mkEntry {
  studentId : option string;
  studentName : option string;
  status : option string;
  date : option Z;
  period : option string;
  subject : option string;
  markedBy : option string;
  year : option string;
  department : option string
}.

Inductive Payload :=
| Recorded (data : list Entry)
| Failed (error : string).

Section Backend.

(** As for persons, the database may refuse a write; the schema has no
    unique field, so this is the only way a save fails. *)
Variable save_fault : Entry → option string.

(** The loop of [app.post('/api/attendance')].  It has no [try] of its
    own: the first save that throws leaves the loop for the handler's
    [catch], with the earlier documents already written.  The collection
    is the list of its documents in the order they were written. *)
Fixpoint post_loop (collection : list Entry) (records : list Entry)
    (results : list Entry) : list Entry * (string + list Entry) :=
  match records with
  | [] => (collection, inr results)
  | record :: rest =>
      match save_fault record with
      | Some m => (collection, inl m)
      | None => post_loop (collection ++ [record]) rest (results ++ [record])
      end
  end.

(** [app.post('/api/attendance')] *)
Definition post (collection : list Entry) (records : list Entry)
  : list Entry * (nat * Payload) :=
  match post_loop collection records [] with
  | (c, inr results) => (c, (200, Recorded results))
  | (c, inl m) => (c, (500, Failed m))
  end.

End Backend.

End Attendance.

(** ** Reading a state and a record, and names without a dot *)

Module Observe.
Import Content.

(** The first match of an id, in the words of the specification: of the
    records the three kinds hold under the id, taken in the order
    materials, question banks, updates, the first one. *)
Definition first_match (w : World) (oid : N) : option Doc :=
  head (omap (λ k, collection k w !! oid) [Material; Question; Update]).



Fixpoint no_dot (s : string) : bool :=
  match s with
  | EmptyString => true
  | String c s' => negb (Ascii.eqb c "."%char) && no_dot s'
  end.

End Observe.

(** ** Sample states and requests *)

Module Samples.

Definition no_fault : People.Person → option string := λ _, None.

Definition alice : People.Person :=
  People.mkPerson "Alice" "s1" "pw" "555" (Some "2") (Some "CSE") None.

Definition bob : People.Person :=
  People.mkPerson "Bob" "s2" "pw" "556" (Some "2") (Some "CSE") None.

Definition db_empty : People.Db := People.mkDb ∅ ∅ ∅.

Definition db_alice : People.Db := People.mkDb {[ "s1" := alice ]} ∅ ∅.

(** A database that refuses the document of [s2], and only that one. *)
Definition fault_s2 : People.Person → option string :=
  λ d, if String.eqb (People.userId d) "s2" then Some "validation failed" else None.

(** Stand-ins for [uploadsDir], [path.join] and [path.extname]; they agree
    with Node on the plain names used below. *)
Definition uploadsDir : string := "/srv/app/uploads".

Definition path_join (a b : string) : string := a ++ "/" ++ b.

Fixpoint path_extname (s : string) : string :=
  match s with
  | EmptyString => EmptyString
  | String c s' =>
      match path_extname s' with
      | EmptyString => if Ascii.eqb c "."%char then s else EmptyString
      | e => e
      end
  end.

Definition stamp : string := "1700000000000-42".

(** A stand-in for [res.download]: what Express answers to a plain GET,
    with no range and no condition, for a path none of whose parts starts
    with a dot. *)
Definition res_download (fs : gmap string Content.FsEntry) (path : string)
    (filename : option string) : Content.Response :=
  match fs !! path with
  | Some (Content.File bytes) =>
      Content.Reply 200 (Content.Attachment path filename bytes)
  | _ => Content.Reply 404 Content.NotFoundPage
  end.

Definition world_empty : Content.World := Content.mkWorld ∅ ∅ ∅ ∅ ∅.

Definition ten_bytes : list Byte.byte :=
  [Byte.x68; Byte.x65; Byte.x6c; Byte.x6c; Byte.x6f;
   Byte.x20; Byte.x6a; Byte.x6b; Byte.x21; Byte.x0a].

Definition notes_txt : Content.FilePart :=
  Content.mkFilePart "notes.TXT" "text/plain" ten_bytes.

Definition setup_exe : Content.FilePart :=
  Content.mkFilePart "setup.exe" "application/octet-stream" ten_bytes.

Definition req_with (p : option Content.FilePart) : Content.UploadReq :=
  Content.mkUploadReq p (Some "Week1") None (Some "2") (Some "CSE") (Some "f1").





(** A record whose path names a directory. *)
Definition doc_dir : Content.Doc :=
  Content.mkDoc (Some "Week2") None None None (Some "b.pdf") (Some "b.pdf")
    (Some "/srv/app/uploads") None None None (Some "f1").

Definition world_dir : Content.World :=
  Content.mkWorld {[ 1%N := doc_dir ]} ∅ ∅
    {[ "/srv/app/uploads" := Content.Directory ]} ∅.

(** A JSON body for [POST /api/materials] with both a path and a bucket
    id. *)
Definition doc_both : Content.Doc :=
  Content.mkDoc (Some "Week3") None None None (Some "c.pdf") (Some "c.pdf")
    (Some "/srv/app/uploads/c.pdf") None None (Some 7%N) (Some "f1").

(** One id held by two collections, each record with a file of its own on
    the disk. *)
Definition doc_m : Content.Doc :=
  Content.mkDoc (Some "Notes") None None None (Some "m.pdf") (Some "m.pdf")
    (Some "/srv/app/uploads/m.pdf") None None None (Some "f1").

Definition doc_q : Content.Doc :=
  Content.mkDoc (Some "Questions") None None None (Some "q.pdf") (Some "q.pdf")
    (Some "/srv/app/uploads/q.pdf") None None None (Some "f1").

Definition world_two_kinds : Content.World :=
  Content.mkWorld {[ 5%N := doc_m ]} {[ 5%N := doc_q ]} ∅
    {[ "/srv/app/uploads/m.pdf" := Content.File ten_bytes;
       "/srv/app/uploads/q.pdf" := Content.File [Byte.x51] ]} ∅.

(** Students of two classes, for the routes that filter. *)
Definition carol : People.Person :=
  People.mkPerson "Carol" "s3" "pw3" "557" (Some "3") (Some "ECE") None.

Definition db_class : People.Db :=
  People.mkDb {[ "s1" := alice; "s2" := bob; "s3" := carol ]} ∅ ∅.

(** The record with both variants, its file on the disk and its file in
    the bucket. *)
Definition world_both : Content.World :=
  Content.mkWorld {[ 1%N := doc_both ]} ∅ ∅
    {[ "/srv/app/uploads/c.pdf" := Content.File ten_bytes ]}
    {[ 7%N := Content.mkGridFile "c.pdf" [Byte.x43] ]}.

(** Two attendance records, and a database that refuses the second. *)
Definition mark_present : Attendance.Entry :=
  Attendance.mkEntry (Some "s1") (Some "Alice") (Some "present")
    (Some 1700000000000%Z) (Some "1") (Some "Maths") (Some "f1") (Some "2")
    (Some "CSE").

Definition mark_absent : Attendance.Entry :=
  Attendance.mkEntry (Some "s2") (Some "Bob") (Some "absent") None (Some "1")
    (Some "Maths") (Some "f1") (Some "2") (Some "CSE").

Definition fault_absent : Attendance.Entry → option string :=
  λ r, match Attendance.date r with
       | Some _ => None
       | None => Some "Cast to date failed"
       end.

End Samples.

(** * Properties *)

(** ** Helpers on the records of the state *)

Lemma people_collection_set (r : People.Role) c db :
  People.collection r (People.set_collection r c db) = c.
Proof. destruct r; reflexivity. Qed.

Lemma people_set_collection_same (r : People.Role) db :
  People.set_collection r (People.collection r db) db = db.
Proof. destruct r, db; reflexivity. Qed.

Lemma people_collection_set_other (r r' : People.Role) c db :
  r ≠ r' →
  People.collection r' (People.set_collection r c db) = People.collection r' db.
Proof. destruct r, r'; intros H; try reflexivity; congruence. Qed.

Lemma truthy_Some_ne (s : string) : s ≠ "" → Js.truthy (Some s) = true.
Proof. destruct s; [congruence | reflexivity]. Qed.

(** ** Single insert of a person *)

Lemma userId_new_Model (r : People.Role) (d : People.Person) :
  People.userId (People.new_Model r d) = People.userId d.
Proof. destruct r; reflexivity. Qed.

Lemma password_new_Model (r : People.Role) (d : People.Person) :
  People.password (People.new_Model r d) = People.password d.
Proof. destruct r; reflexivity. Qed.

Lemma save_duplicate fault (c : gmap string People.Person) d :
  fault d = None → is_Some (c !! People.userId d) →
  People.save fault c d = inl People.E11000.
Proof.
  intros Hf [p Hp]. unfold People.save. rewrite Hf, Hp. reflexivity.
Qed.

Lemma save_fresh fault (c : gmap string People.Person) d :
  fault d = None → c !! People.userId d = None →
  People.save fault c d = inr (<[People.userId d := d]> c).
Proof.
  intros Hf Hp. unfold People.save. rewrite Hf, Hp. reflexivity.
Qed.

Lemma post_duplicate fault r db d :
  fault (People.new_Model r d) = None →
  is_Some (People.collection r db !! People.userId d) →
  People.post fault r db d
    = (db, People.mkResponse 200 (People.Refused (People.already_exists r))).
Proof.
  intros Hf Hin. unfold People.post. cbv zeta.
  rewrite (save_duplicate _ _ _ Hf); [reflexivity |].
  by rewrite userId_new_Model.
Qed.

Lemma post_fresh fault r db d :
  fault (People.new_Model r d) = None →
  People.collection r db !! People.userId d = None →
  People.post fault r db d
    = (People.set_collection r
         (<[People.userId d := People.new_Model r d]> (People.collection r db)) db,
       People.mkResponse 200 (People.Created (People.new_Model r d))).
Proof.
  intros Hf Hnew. unfold People.post. cbv zeta.
  rewrite (save_fresh _ _ _ Hf); rewrite userId_new_Model; [reflexivity | exact Hnew].
Qed.

(** C6. A single insert whose [userId] is already in the collection, so
    that the save meets the unique-constraint violation, leaves the database
    as it was and answers HTTP 200 with [success: false] and the role's
    "ID already exists" message: never a 500. *)
Theorem post_duplicate_is_soft_failure
    (fault : People.Person → option string) (r : People.Role)
    (db : People.Db) (d : People.Person) :
  fault (People.new_Model r d) = None →
  is_Some (People.collection r db !! People.userId d) →
  People.post fault r db d
    = (db, People.mkResponse 200 (People.Refused (People.already_exists r)))
  ∧ People.status (People.post fault r db d).2 = 200
  ∧ People.success (People.body (People.post fault r db d).2) = false.
Proof.
  intros Hf Hin. rewrite (post_duplicate _ _ _ _ Hf Hin). auto.
Qed.

Lemma post_duplicate_is_soft_failure_witness :
  People.post Samples.no_fault People.Student Samples.db_alice Samples.alice
    = (Samples.db_alice,
       People.mkResponse 200 (People.Refused "Student ID already exists"))
  ∧ People.status
      (People.post Samples.no_fault People.Student Samples.db_alice Samples.alice).2 = 200
  ∧ People.success
      (People.body
         (People.post Samples.no_fault People.Student Samples.db_alice Samples.alice).2)
    = false.
Proof.
  apply (post_duplicate_is_soft_failure
           Samples.no_fault People.Student Samples.db_alice Samples.alice).
  - reflexivity.
  - exists Samples.alice. vm_compute. reflexivity.
Defined.

(** The scenario of the specification: the same [userId] sent twice to
    [POST /api/<role>]; whatever the first call did, and whatever the
    database did to it, the second is the soft failure as soon as its own
    save reaches the unique index. *)
Lemma post_twice_second_is_soft_failure fault fault' r db d d' :
  fault (People.new_Model r d) = None →
  fault' (People.new_Model r d') = None →
  People.userId d' = People.userId d →
  let db1 := (People.post fault r db d).1 in
  People.post fault' r db1 d'
    = (db1, People.mkResponse 200 (People.Refused (People.already_exists r))).
Proof.
  intros Hf Hf' Hu db1.
  apply post_duplicate; [exact Hf' |]. rewrite Hu. subst db1.
  destruct (People.collection r db !! People.userId d) as [p|] eqn:E.
  - rewrite post_duplicate by (rewrite ?E; eauto). simpl. rewrite E. eauto.
  - rewrite post_fresh by assumption. simpl.
    rewrite people_collection_set, lookup_insert_eq. eauto.
Qed.

(** ** Deleting one person by [userId] *)

Lemma delete_individual_guard r db q :
  Js.truthy q = false →
  People.delete_individual r db q
    = (db, People.mkResponse 400 (People.Refused "User ID is required")).
Proof. intros H. unfold People.delete_individual. rewrite H. reflexivity. Qed.




(** ** Bulk insert of persons *)

Lemma userId_docs (r : People.Role) (items : list People.Person) :
  People.userId <$> (People.new_Model r <$> items) = People.userId <$> items.
Proof.
  rewrite <- list_fmap_compose. apply list_fmap_ext.
  intros i d _. apply userId_new_Model.
Qed.

Lemma filter_userId_docs (r : People.Role) (present : gset string)
    (items : list People.Person) :
  People.userId <$> filter (λ d, People.userId d ∈ present) (People.new_Model r <$> items)
  = People.userId <$> filter (λ d, People.userId d ∈ present) items.
Proof.
  induction items as [|x rest IH]; [reflexivity |].
  rewrite fmap_cons. destruct (decide (People.userId x ∈ present)) as [Hin|Hout].
  - rewrite !filter_cons_True by (rewrite ?userId_new_Model; exact Hin).
    rewrite !fmap_cons, IH, userId_new_Model. reflexivity.
  - rewrite !filter_cons_False by (rewrite ?userId_new_Model; exact Hout).
    exact IH.
Qed.

Section Bulk.

Variable fault : People.Person → option string.

Abbreviation store_all :=
  (foldl (λ (m : gmap string People.Person) d, <[People.userId d := d]> m)).

Lemma bulk_loop_spec (r : People.Role) (items : list People.Person) :
  ∀ (c : gmap string People.Person) rs ds n,
    let docs := People.new_Model r <$> items in
    People.bulk_loop fault r c items rs ds n
    = (store_all c (People.stored fault (dom c) docs),
       ((rs ++ People.stored fault (dom c) docs)%list,
        (ds ++ People.collisions fault (dom c) docs)%list,
        n + length (People.stored fault (dom c) docs))).
Proof.
  induction items as [|d rest IH]; intros c rs ds n; cbv zeta.
  - simpl. rewrite !app_nil_r, Nat.add_0_r. reflexivity.
  - rewrite fmap_cons. cbn [People.bulk_loop People.stored People.collisions].
    unfold People.save. destruct (fault (People.new_Model r d)) as [m|] eqn:Hf.
    + apply IH.
    + destruct (c !! People.userId (People.new_Model r d)) as [p|] eqn:Hc.
      * destruct (decide (People.userId (People.new_Model r d) ∈ dom c)) as [_|Hout];
          [| exfalso; apply Hout, elem_of_dom; eauto].
        rewrite IH. cbv zeta. rewrite <- app_assoc, userId_new_Model. reflexivity.
      * destruct (decide (People.userId (People.new_Model r d) ∈ dom c)) as [Hin|_];
          [apply elem_of_dom in Hin; destruct Hin; congruence |].
        rewrite IH. cbv zeta. rewrite dom_insert_L. simpl.
        rewrite <- app_assoc, Nat.add_succ_r. reflexivity.
Qed.

Lemma batch_partition (items : list People.Person) :
  ∀ present,
    length (People.stored fault present items)
    + length (People.collisions fault present items)
    + length (People.failing fault items)
    = length items.
Proof.
  unfold People.failing.
  induction items as [|d rest IH]; intros present; simpl; [reflexivity |].
  destruct (fault d) as [m|] eqn:Hf.
  - rewrite filter_cons_True by (rewrite Hf; eauto). simpl.
    specialize (IH present). lia.
  - rewrite filter_cons_False by (rewrite Hf; intros [? ?]; discriminate).
    destruct (decide (People.userId d ∈ present)); simpl.
    + specialize (IH present). lia.
    + specialize (IH ({[People.userId d]} ∪ present)). lia.
Qed.

Lemma stored_ok (items : list People.Person) :
  ∀ present d, d ∈ People.stored fault present items →
    d ∈ items ∧ fault d = None ∧ People.userId d ∉ present.
Proof.
  induction items as [|x rest IH]; intros present d; simpl.
  - intros H. inversion H.
  - destruct (fault x) as [m|] eqn:Hf.
    + intros H. destruct (IH _ _ H) as (? & ? & ?).
      repeat split; auto. by right.
    + destruct (decide (People.userId x ∈ present)).
      * intros H. destruct (IH _ _ H) as (? & ? & ?).
        repeat split; auto. by right.
      * intros [->|H]%elem_of_cons.
        -- repeat split; auto. by left.
        -- destruct (IH _ _ H) as (? & ? & Hn).
           repeat split; auto; [by right | set_solver].
Qed.

Lemma collisions_ok (items : list People.Person) :
  ∀ present u, u ∈ People.collisions fault present items →
    ∃ d, d ∈ items ∧ People.userId d = u ∧ fault d = None.
Proof.
  induction items as [|x rest IH]; intros present u; simpl.
  - intros H. inversion H.
  - destruct (fault x) as [m|] eqn:Hf.
    + intros H. destruct (IH _ _ H) as (d & ? & ? & ?).
      exists d. repeat split; auto. by right.
    + destruct (decide (People.userId x ∈ present)).
      * intros [->|H]%elem_of_cons.
        -- exists x. repeat split; auto. by left.
        -- destruct (IH _ _ H) as (d & ? & ? & ?).
           exists d. repeat split; auto. by right.
      * intros H. destruct (IH _ _ H) as (d & ? & ? & ?).
        exists d. repeat split; auto. by right.
Qed.

Lemma stored_in_final (items : list People.Person) :
  ∀ (c : gmap string People.Person),
    let l := People.stored fault (dom c) items in
    c ⊆ store_all c l
    ∧ (∀ d, d ∈ l → store_all c l !! People.userId d = Some d)
    ∧ size (store_all c l) = size c + length l
    ∧ dom (store_all c l) = dom c ∪ list_to_set (People.userId <$> l).
Proof.
  induction items as [|x rest IH]; intros c; simpl.
  - repeat split; [done | intros d H; inversion H | lia | set_solver].
  - destruct (fault x) as [m|] eqn:Hf; [apply IH |].
    destruct (decide (People.userId x ∈ dom c)) as [Hin|Hout]; [apply IH |].
    simpl. apply not_elem_of_dom in Hout.
    specialize (IH (<[People.userId x := x]> c)).
    rewrite dom_insert_L in IH. simpl in IH.
    destruct IH as (Hsub & Hl & Hsz & Hdom).
    repeat split.
    + etrans; [| exact Hsub]. by apply insert_subseteq.
    + intros d [->|H]%elem_of_cons; [| by apply Hl].
      eapply lookup_weaken; [| exact Hsub]. apply lookup_insert_eq.
    + rewrite Hsz, map_size_insert_None by done. lia.
    + rewrite Hdom. set_solver.
Qed.

End Bulk.

Lemma collisions_plain fault (items : list People.Person) :
  (∀ d, d ∈ items → fault d = None) →
  NoDup (People.userId <$> items) →
  ∀ extra present : gset string,
    (∀ d, d ∈ items → People.userId d ∉ extra) →
    People.collisions fault (extra ∪ present) items
    = People.userId <$> filter (λ d, People.userId d ∈ present) items.
Proof.
  induction items as [|x rest IH]; intros Hf Hnd extra present Hex; [reflexivity |].
  rewrite fmap_cons in Hnd. apply NoDup_cons in Hnd as [Hx Hnd].
  assert (∀ d, d ∈ rest → fault d = None) as Hf' by (intros; apply Hf; by right).
  simpl. rewrite (Hf x) by (by left).
  assert (People.userId x ∉ extra) as Hxe by (apply Hex; by left).
  destruct (decide (People.userId x ∈ present)) as [Hin|Hout].
  - rewrite decide_True by (apply elem_of_union; by right).
    rewrite filter_cons_True by exact Hin. rewrite fmap_cons. f_equal.
    apply IH; auto. intros d Hd. apply Hex. by right.
  - rewrite decide_False by (intros [?|?]%elem_of_union; contradiction).
    rewrite filter_cons_False by exact Hout.
    rewrite (assoc_L (∪)). apply IH; auto.
    intros d Hd [Heq%elem_of_singleton|He]%elem_of_union.
    + apply Hx. rewrite <- Heq. by apply list_elem_of_fmap_2.
    + eapply Hex; [by right | exact He].
Qed.

Lemma failing_none fault (items : list People.Person) :
  (∀ d, d ∈ items → fault d = None) → People.failing fault items = [].
Proof.
  intros Hf. unfold People.failing.
  induction items as [|x rest IH]; [reflexivity |].
  rewrite filter_cons_False.
  - apply IH. intros d Hd. apply Hf. by right.
  - rewrite (Hf x) by (by left). intros [? ?]; discriminate.
Qed.

Lemma post_bulk_unfold fault r db items :
  let c := People.collection r db in
  let docs := People.new_Model r <$> items in
  People.post_bulk fault r db items
  = (People.set_collection r
       (foldl (λ (m : gmap string People.Person) d, <[People.userId d := d]> m) c
          (People.stored fault (dom c) docs)) db,
     People.mkResponse 200
       (People.BulkResult (length (People.stored fault (dom c) docs))
          (People.collisions fault (dom c) docs)
          (People.stored fault (dom c) docs))).
Proof.
  intros c docs. unfold People.post_bulk. fold c.
  rewrite bulk_loop_spec. reflexivity.
Qed.

(** C5, as the code has it.  Of the [N] items of a batch let [K] be those
    that collide with a [userId] present when they are reached and [F]
    those the database refuses for another reason.  The answer is HTTP 200
    with [addedCount = N - K - F], a [duplicates] list of exactly the [K]
    colliding [userId]s and the stored documents as [data]; each of the
    [N - K - F] others is stored under its [userId], as the document
    mongoose builds from the item, nothing that was in the collection is
    lost, the other collections are untouched, and the loop always runs to
    the end of the batch.  When no write fails for another reason and no
    [userId] occurs twice in the batch, [F = 0] and the [K] colliding
    items are those whose [userId] was in the collection before the
    request. *)
Theorem bulk_insert_accounting
    (fault : People.Person → option string) (r : People.Role)
    (db : People.Db) (items : list People.Person) :
  let c := People.collection r db in
  let docs := People.new_Model r <$> items in
  let duplicates := People.collisions fault (dom c) docs in
  let results := People.stored fault (dom c) docs in
  let K := length duplicates in
  let F := length (People.failing fault docs) in
  let out := People.post_bulk fault r db items in
  out.2 = People.mkResponse 200
            (People.BulkResult (length items - K - F) duplicates results)
  ∧ length results = length items - K - F
  ∧ (∀ d, d ∈ results →
       People.collection r out.1 !! People.userId d = Some d
       ∧ ∃ data, data ∈ items ∧ d = People.new_Model r data)
  ∧ c ⊆ People.collection r out.1
  ∧ size (People.collection r out.1) = size c + (length items - K - F)
  ∧ (∀ r', r ≠ r' → People.collection r' out.1 = People.collection r' db)
  ∧ ((∀ d, d ∈ docs → fault d = None) →
     NoDup (People.userId <$> items) →
     F = 0
     ∧ duplicates
       = People.userId <$> filter (λ d, People.userId d ∈ dom c) items).
Proof.
  intros c docs duplicates results K F out.
  pose proof (batch_partition fault docs (dom c)) as Hn.
  fold duplicates results K F in Hn.
  assert (length docs = length items) as Hld by apply length_fmap.
  assert (length results = length items - K - F) as Hlen by lia.
  destruct (stored_in_final fault docs c) as (Hsub & Hl & Hsz & _).
  subst out. rewrite post_bulk_unfold. simpl.
  rewrite people_collection_set. fold c docs results duplicates.
  rewrite <- Hlen.
  split; [reflexivity |]. split; [reflexivity |]. split.
  { intros d Hd. split; [by apply Hl |].
    apply stored_ok in Hd as (Hd & _ & _).
    apply list_elem_of_fmap in Hd as (data & -> & Hdata). eauto. }
  split; [exact Hsub |]. split; [exact Hsz |]. split.
  - intros r' Hr. by apply people_collection_set_other.
  - intros Hf Hnd. split.
    + subst F. by rewrite (failing_none _ _ Hf).
    + subst duplicates docs. rewrite <- (filter_userId_docs r).
      rewrite <- (left_id_L ∅ (∪) (dom c)) at 1.
      apply collisions_plain; auto.
      * by rewrite userId_docs.
      * intros d _. apply not_elem_of_empty.
Qed.

(** The batch the specification has in mind: no write fails for another
    reason and no [userId] occurs twice in the batch.  Then [K] is the
    number of items whose [userId] is in the collection before the request,
    and the answer has [addedCount = N - K] and those [K] ids as
    [duplicates]. *)
Lemma bulk_insert_plain_batch fault r db (items : list People.Person) :
  (∀ d, d ∈ items → fault (People.new_Model r d) = None) →
  NoDup (People.userId <$> items) →
  let present :=
    filter (λ d, People.userId d ∈ dom (People.collection r db)) items in
  ∃ data,
    (People.post_bulk fault r db items).2
    = People.mkResponse 200
        (People.BulkResult (length items - length present)
           (People.userId <$> present) data)
    ∧ length data = length items - length present.
Proof.
  intros Hf Hnd present.
  set (c := People.collection r db).
  set (docs := People.new_Model r <$> items).
  assert (∀ d, d ∈ docs → fault d = None) as Hf'.
  { intros d (data & -> & Hd)%list_elem_of_fmap. by apply Hf. }
  pose proof (batch_partition fault docs (dom c)) as Hn.
  rewrite (failing_none _ _ Hf') in Hn. simpl in Hn.
  pose proof (collisions_plain fault docs Hf') as Hc.
  specialize (Hc ltac:(subst docs; by rewrite userId_docs) ∅ (dom c)).
  rewrite (left_id_L ∅ (∪)) in Hc.
  rewrite Hc in Hn by (intros; set_solver).
  subst docs. rewrite filter_userId_docs in Hc, Hn.
  rewrite !length_fmap in Hn.
  fold c in present. fold present in Hn.
  exists (People.stored fault (dom c) (People.new_Model r <$> items)).
  rewrite post_bulk_unfold. fold c. simpl.
  rewrite Hc by (intros; set_solver). fold present.
  split; [f_equal; f_equal |]; lia.
Qed.

(** C5 as written fails when the database refuses an item for another
    reason: a batch of two new students, the second one refused, has
    [N = 2] and [K = 0], and the answer reports [addedCount = 1]. *)
Lemma bulk_insert_added_is_not_N_minus_K :
  let items := [Samples.alice; Samples.bob] in
  let out := People.post_bulk Samples.fault_s2 People.Student Samples.db_empty items in
  People.collection People.Student Samples.db_empty = ∅
  ∧ People.collisions Samples.fault_s2 ∅ (People.new_Model People.Student <$> items) = []
  ∧ out.2 = People.mkResponse 200 (People.BulkResult 1 [] [Samples.alice])
  ∧ 1 ≠ length items - 0
  ∧ People.collection People.Student out.1 !! "s2" = None.
Proof.
  cbv zeta. rewrite post_bulk_unfold. repeat split; try discriminate.
Qed.

(** C9. In a bulk insert an item whose save fails for a reason other than
    the unique-constraint violation leaves no trace: it is not in [data]
    (so not counted in [addedCount], which is the length of [data]), every
    entry of [duplicates] comes from an item that did not fail that way,
    the collection gains the documents of [data] and nothing else, and the
    answer is still HTTP 200 with [success: true].  So
    [addedCount + length duplicates] is the number of items minus the
    number of such failures, and there are batches where it is strictly
    less than the number of items. *)
Theorem bulk_insert_drops_other_failures :
  (∀ (fault : People.Person → option string) r db items,
     let docs := People.new_Model r <$> items in
     let out := People.post_bulk fault r db items in
     ∃ addedCount duplicates data,
       out.2 = People.mkResponse 200 (People.BulkResult addedCount duplicates data)
       ∧ People.success (People.body out.2) = true
       ∧ addedCount = length data
       ∧ addedCount + length duplicates + length (People.failing fault docs)
         = length items
       ∧ (∀ d, d ∈ People.failing fault docs → d ∉ data)
       ∧ (∀ u, u ∈ duplicates →
            ∃ d, d ∈ items ∧ People.userId d = u
                 ∧ fault (People.new_Model r d) = None)
       ∧ dom (People.collection r out.1)
         = dom (People.collection r db) ∪ list_to_set (People.userId <$> data))
  ∧ (∃ (fault : People.Person → option string) r db items
       addedCount duplicates data,
       (People.post_bulk fault r db items).2
         = People.mkResponse 200 (People.BulkResult addedCount duplicates data)
       ∧ addedCount + length duplicates < length items).
Proof.
  split.
  - intros fault r db items docs out. subst out. rewrite post_bulk_unfold. simpl.
    set (c := People.collection r db). fold docs.
    exists (length (People.stored fault (dom c) docs)),
      (People.collisions fault (dom c) docs),
      (People.stored fault (dom c) docs).
    rewrite people_collection_set.
    destruct (stored_in_final fault docs c) as (_ & _ & _ & Hdom).
    split; [reflexivity |]. split; [reflexivity |]. split; [reflexivity |].
    split; [| split; [| split; [| exact Hdom]]].
    + rewrite batch_partition. subst docs. apply length_fmap.
    + intros d Hd Hin. apply stored_ok in Hin as (_ & Hnone & _).
      unfold People.failing in Hd. apply list_elem_of_filter in Hd as [[m Hm] _].
      congruence.
    + intros u Hu. apply collisions_ok in Hu as (d & Hd & Hud & Hfd).
      apply list_elem_of_fmap in Hd as (data & -> & Hdata).
      exists data. by rewrite userId_new_Model in Hud.
  - exists Samples.fault_s2, People.Student, Samples.db_empty,
      [Samples.alice; Samples.bob], 1, [], [Samples.alice].
    rewrite post_bulk_unfold. split; [reflexivity | simpl; lia].
Qed.

(** ** Retrieval: which record answers for an id *)

Section Resolution.

Import Content.

Variable uploadsDir : string.
Variable path_join : string → string → string.
Variable res_download : gmap string FsEntry → string → option string → Response.


Lemma resolve_none (w : World) (oid : N) :
  materials w !! oid = None → questions w !! oid = None → updates w !! oid = None →
  resolve w (ObjectId oid) = inr None.
Proof.
  intros H1 H2 H3. unfold resolve, findById. simpl. rewrite H1, H2, H3. reflexivity.
Qed.






End Resolution.


(** An id held by materials and by question banks is answered from the
    material, on both servers. *)
Example material_wins_over_question :
  let inline :=
    Content.Reply 200
      (Content.Stream "application/octet-stream"
         ("inline; filename=" ++ Content.dquote ++ "m.pdf" ++ Content.dquote)
         Samples.ten_bytes) in
  Content.questions Samples.world_two_kinds !! 5%N = Some Samples.doc_q
  ∧ Observe.first_match Samples.world_two_kinds 5 = Some Samples.doc_m
  ∧ Disk.view Samples.uploadsDir Samples.path_join Samples.world_two_kinds
      (Content.ObjectId 5) = inline
  ∧ Gridfs.view Samples.world_two_kinds (Content.ObjectId 5) = inline
  ∧ Gridfs.download Samples.res_download Samples.world_two_kinds (Content.ObjectId 5)
    = Content.Reply 200
        (Content.Attachment "/srv/app/uploads/m.pdf" (Some "m.pdf") Samples.ten_bytes).
Proof. cbv zeta. repeat split. Qed.


(** ** The upload gate *)

Section Gate.

Import Content.

Lemma append_nil_l (s : string) : "" ++ s = s.
Proof. reflexivity. Qed.

Lemma append_cons (a : ascii) (s t : string) :
  String a s ++ t = String a (s ++ t).
Proof. reflexivity. Qed.

Lemma ends_with_spec (suffix s : string) :
  ends_with suffix s = true ↔ ∃ stem, s = stem ++ suffix.
Proof.
  induction s as [|a s IH]; cbn [ends_with].
  - rewrite orb_false_r, String.eqb_eq. split.
    + intros <-. exists "". reflexivity.
    + intros [[|b stem] H].
      * by rewrite append_nil_l in H.
      * rewrite append_cons in H. discriminate.
  - rewrite orb_true_iff, String.eqb_eq, IH. split.
    + intros [<- | [stem ->]]; [exists "" | exists (String a stem)]; reflexivity.
    + intros [[|b stem] H].
      * left. by rewrite append_nil_l in H.
      * right. rewrite append_cons in H. exists stem. congruence.
Qed.

Lemma lowercase_app (a b : string) :
  lowercase (a ++ b) = lowercase a ++ lowercase b.
Proof.
  induction a as [|c a IH]; [reflexivity |].
  rewrite append_cons. cbn [lowercase]. rewrite append_cons, IH. reflexivity.
Qed.

Lemma lowercase_split (s x y : string) :
  lowercase s = x ++ y →
  ∃ a b, s = a ++ b ∧ lowercase a = x ∧ lowercase b = y.
Proof.
  revert s. induction x as [|c x IH]; intros s H.
  - exists "", s. auto.
  - rewrite append_cons in H.
    destruct s as [|d s]; cbn [lowercase] in H; [discriminate |].
    injection H as Hc Hs. destruct (IH _ Hs) as (a & b & -> & Ha & Hb).
    exists (String d a), b. cbn [lowercase]. rewrite Hc, Ha. auto.
Qed.

Lemma to_lower_dot (c : ascii) : to_lower c = "."%char → c = "."%char.
Proof.
  destruct c as [[] [] [] [] [] [] [] []]; vm_compute; intros H;
    first [reflexivity | discriminate H].
Qed.

(** The test of [fileFilter] read on the name: the name is some stem, a
    dot, and an extension that is one of the sixteen once its letters are
    put in lower case. *)
Lemma allowedTypes_test_spec (name : string) :
  allowedTypes_test name = true
  ↔ ∃ stem ext, name = stem ++ "." ++ ext ∧ In (lowercase ext) allowed_extensions.
Proof.
  unfold allowedTypes_test. rewrite existsb_exists. split.
  - intros (e & Hin & He). apply ends_with_spec in He as [stem' He].
    apply lowercase_split in He as (stem & b & -> & _ & Hb).
    change ("." ++ e) with (String "."%char e) in Hb.
    destruct b as [|c ext]; cbn [lowercase] in Hb; [discriminate |].
    injection Hb as Hc Hext. apply to_lower_dot in Hc as ->.
    exists stem, ext. split; [reflexivity | by rewrite Hext].
  - intros (stem & ext & -> & Hin). exists (lowercase ext). split; [exact Hin |].
    apply ends_with_spec. exists (lowercase stem).
    rewrite lowercase_app. reflexivity.
Qed.

Lemma gate_refuses_type (p : FilePart) :
  allowedTypes_test (originalname p) = false → gate p = Throw invalid_file_type.
Proof. intros H. unfold gate. rewrite H. reflexivity. Qed.

Lemma gate_refuses_size (p : FilePart) :
  allowedTypes_test (originalname p) = true → (fileSize_limit < size_of p)%N →
  gate p = Throw file_too_large.
Proof.
  intros H Hs. unfold gate. rewrite H. simpl.
  apply N.ltb_lt in Hs. rewrite Hs. reflexivity.
Qed.

Lemma gate_accepts (p : FilePart) :
  allowedTypes_test (originalname p) = true → (size_of p ≤ fileSize_limit)%N →
  gate p = Next p.
Proof.
  intros H Hs. unfold gate. rewrite H. simpl.
  apply N.ltb_ge in Hs. rewrite Hs. reflexivity.
Qed.

End Gate.

(** ** Helpers on the state of the content routes *)

Section WorldFacts.

Import Content.

Lemma collection_set (k : Kind) c w : collection k (set_collection k c w) = c.
Proof. destruct k; reflexivity. Qed.

Lemma collection_set_fsys (k : Kind) f w : collection k (set_fsys f w) = collection k w.
Proof. destruct k; reflexivity. Qed.

Lemma collection_set_gridfs (k : Kind) g w :
  collection k (set_gridfs g w) = collection k w.
Proof. destruct k; reflexivity. Qed.

Lemma collection_set_other (k k' : Kind) c w :
  k ≠ k' → collection k' (set_collection k c w) = collection k' w.
Proof. destruct k, k'; intros H; try reflexivity; congruence. Qed.

Lemma fsys_set_collection (k : Kind) c w : fsys (set_collection k c w) = fsys w.
Proof. destruct k; reflexivity. Qed.

Lemma gridfs_set_collection (k : Kind) c w : gridfs (set_collection k c w) = gridfs w.
Proof. destruct k; reflexivity. Qed.

Lemma fresh_id_is_new {A} (m : gmap N A) : m !! fresh (dom m) = None.
Proof. apply not_elem_of_dom, is_fresh. Qed.

End WorldFacts.

(** ** Upload *)

(** C7. An upload request with no file part is answered HTTP 400 with
    [success: false] and "No file uploaded", in both servers and for the
    three kinds, and the state after it is the state before it: nothing is
    written to the disk, to the bucket or to a collection. *)
Theorem upload_without_file_is_refused
    (uploadsDir : string) (path_join : string → string → string)
    (path_extname : string → string)
    (k : Content.Kind) (w : Content.World) (stamp : string)
    (req : Content.UploadReq) (fault : option string) :
  Content.file_part req = None →
  Disk.upload uploadsDir path_join path_extname k w stamp req fault
    = (w, Content.Reply 400 (Content.Message false "No file uploaded"))
  ∧ Gridfs.upload k w stamp req fault
    = (w, Content.Reply 400 (Content.Message false "No file uploaded")).
Proof.
  intros H.
  unfold Disk.upload, Disk.upload_single, Gridfs.upload, Gridfs.upload_single.
  rewrite H. auto.
Qed.

Lemma upload_without_file_is_refused_witness :
  Disk.upload Samples.uploadsDir Samples.path_join Samples.path_extname
    Content.Material Samples.world_empty Samples.stamp (Samples.req_with None) None
    = (Samples.world_empty, Content.Reply 400 (Content.Message false "No file uploaded"))
  ∧ Gridfs.upload Content.Material Samples.world_empty Samples.stamp
      (Samples.req_with None) None
    = (Samples.world_empty, Content.Reply 400 (Content.Message false "No file uploaded")).
Proof.
  apply (upload_without_file_is_refused
           Samples.uploadsDir Samples.path_join Samples.path_extname
           Content.Material Samples.world_empty Samples.stamp (Samples.req_with None)
           None).
  reflexivity.
Defined.

Section UploadGate.

Import Content.

Variable uploadsDir : string.
Variable path_join : string → string → string.
Variable path_extname : string → string.

Lemma upload_refused (k : Kind) (w : World) (stamp : string) (req : UploadReq)
    (fault : option string) (p : FilePart) (e : JsError) :
  file_part req = Some p → gate p = Throw e →
  Disk.upload uploadsDir path_join path_extname k w stamp req fault
    = (w, default_error_handler e)
  ∧ Gridfs.upload k w stamp req fault = (w, default_error_handler e).
Proof.
  intros Hp Hg.
  unfold Disk.upload, Disk.upload_single, Gridfs.upload, Gridfs.upload_single.
  rewrite Hp, Hg. auto.
Qed.

(** An accepted file on the disk server: the bytes are on the disk under
    the path the new record carries, and the record is new in its
    collection. *)
Lemma disk_upload_accepted (k : Kind) (w : World) (stamp : string)
    (req : UploadReq) (p : FilePart) :
  file_part req = Some p → gate p = Next p →
  ∃ w' doc dest id,
    Disk.upload uploadsDir path_join path_extname k w stamp req None
      = (w', Reply 200 (Saved (uploaded_message k) doc))
    ∧ filePath doc = Some dest
    ∧ fileId doc = None
    ∧ originalFileName doc = Some (originalname p)
    ∧ fileSize doc = Some (size_of p)
    ∧ fsys w' !! dest = Some (File (content p))
    ∧ collection k w !! id = None
    ∧ collection k w' = <[id := doc]> (collection k w).
Proof.
  intros Hp Hg. unfold Disk.upload, Disk.upload_single. rewrite Hp, Hg.
  unfold Disk.diskStorage, save. simpl.
  do 4 eexists. split; [reflexivity |]. simpl.
  rewrite fsys_set_collection, collection_set, collection_set_fsys. simpl.
  repeat split; [apply lookup_insert_eq | apply fresh_id_is_new].
Qed.

(** An accepted file on the GridFS server: the bytes are in a new file of
    the bucket whose id the new record carries, and the record is new in
    its collection. *)
Lemma gridfs_upload_accepted (k : Kind) (w : World) (stamp : string)
    (req : UploadReq) (p : FilePart) :
  file_part req = Some p → gate p = Next p →
  ∃ w' doc fid id,
    Gridfs.upload k w stamp req None
      = (w', Reply 200 (Saved (uploaded_message k) doc))
    ∧ fileId doc = Some fid
    ∧ filePath doc = None
    ∧ fileSize doc = Some (size_of p)
    ∧ gridfs w !! fid = None
    ∧ grid_bytes <$> gridfs w' !! fid = Some (content p)
    ∧ collection k w !! id = None
    ∧ collection k w' = <[id := doc]> (collection k w).
Proof.
  intros Hp Hg. unfold Gridfs.upload, Gridfs.upload_single. rewrite Hp, Hg.
  unfold Gridfs.gridFsStorage, save. simpl.
  do 4 eexists. split; [reflexivity |]. simpl.
  rewrite gridfs_set_collection, collection_set, collection_set_gridfs. simpl.
  rewrite lookup_insert_eq.
  repeat split; [apply fresh_id_is_new | apply fresh_id_is_new].
Qed.

(** An accepted file whose record the database refuses: the answer is
    HTTP 500 with the error of the database, no record is stored, and the
    file stays where multer has put it. *)
Lemma disk_upload_orphan (k : Kind) (w : World) (stamp : string)
    (req : UploadReq) (p : FilePart) (message : string) :
  file_part req = Some p → gate p = Next p →
  Disk.upload uploadsDir path_join path_extname k w stamp req (Some message)
  = (set_fsys
       (<[path_join uploadsDir (stamp ++ path_extname (originalname p))
          := File (content p)]> (fsys w)) w,
     Reply 500 (Failed message)).
Proof.
  intros Hp Hg. unfold Disk.upload, Disk.upload_single. rewrite Hp, Hg.
  reflexivity.
Qed.

Lemma gridfs_upload_orphan (k : Kind) (w : World) (stamp : string)
    (req : UploadReq) (p : FilePart) (message : string) :
  file_part req = Some p → gate p = Next p →
  Gridfs.upload k w stamp req (Some message)
  = (set_gridfs
       (<[fresh (dom (gridfs w))
          := mkGridFile (stamp ++ "-" ++ originalname p) (content p)]> (gridfs w)) w,
     Reply 500 (Failed message)).
Proof.
  intros Hp Hg. unfold Gridfs.upload, Gridfs.upload_single. rewrite Hp, Hg.
  reflexivity.
Qed.

End UploadGate.

(** C3, as the code has it.  The gate of both servers passes a file exactly
    when its name ends in a dot and one of the sixteen extensions, letter
    case ignored, and its size is at most 50 MiB (a constant of the code);
    a file that passes is stored.  A file that fails the extension check,
    and likewise one that is too large, is refused before the route handler
    runs: the state is unchanged (no bytes on the disk or in the bucket, no
    record), and the error goes to Express's default error handler, which
    answers HTTP 500. *)
Theorem upload_gate_outcomes
    (uploadsDir : string) (path_join : string → string → string)
    (path_extname : string → string)
    (k : Content.Kind) (w : Content.World) (stamp : string)
    (req : Content.UploadReq) (fault : option string) (p : Content.FilePart) :
  Content.file_part req = Some p →
  Content.fileSize_limit = 52428800%N
  ∧ (Content.allowedTypes_test (Content.originalname p) = true
     ↔ ∃ stem ext, Content.originalname p = stem ++ "." ++ ext
                   ∧ In (Content.lowercase ext) Content.allowed_extensions)
  ∧ (Content.allowedTypes_test (Content.originalname p) = false →
     Disk.upload uploadsDir path_join path_extname k w stamp req fault
       = (w, Content.Reply 500
               (Content.ErrorPage
                  "Invalid file type. Please upload educational content files."))
     ∧ Gridfs.upload k w stamp req fault
       = (w, Content.Reply 500
               (Content.ErrorPage
                  "Invalid file type. Please upload educational content files.")))
  ∧ (Content.allowedTypes_test (Content.originalname p) = true →
     (Content.fileSize_limit < Content.size_of p)%N →
     Disk.upload uploadsDir path_join path_extname k w stamp req fault
       = (w, Content.Reply 500 (Content.ErrorPage "File too large"))
     ∧ Gridfs.upload k w stamp req fault
       = (w, Content.Reply 500 (Content.ErrorPage "File too large")))
  ∧ (Content.allowedTypes_test (Content.originalname p) = true →
     (Content.size_of p ≤ Content.fileSize_limit)%N →
     Content.gate p = Content.Next p
     ∧ (∃ w' doc dest id,
          Disk.upload uploadsDir path_join path_extname k w stamp req None
            = (w', Content.Reply 200 (Content.Saved (Content.uploaded_message k) doc))
          ∧ Content.filePath doc = Some dest
          ∧ Content.fsys w' !! dest = Some (Content.File (Content.content p))
          ∧ Content.collection k w !! id = None
          ∧ Content.collection k w' !! id = Some doc)
     ∧ (∃ w' doc fid id,
          Gridfs.upload k w stamp req None
            = (w', Content.Reply 200 (Content.Saved (Content.uploaded_message k) doc))
          ∧ Content.fileId doc = Some fid
          ∧ Content.gridfs w !! fid = None
          ∧ Content.grid_bytes <$> Content.gridfs w' !! fid = Some (Content.content p)
          ∧ Content.collection k w !! id = None
          ∧ Content.collection k w' !! id = Some doc)).
Proof.
  intros Hp.
  split; [reflexivity |].
  split; [apply allowedTypes_test_spec |].
  split; [| split].
  - intros Hno.
    apply (upload_refused uploadsDir path_join path_extname k w stamp req fault p _ Hp
             (gate_refuses_type p Hno)).
  - intros Hyes Hbig.
    apply (upload_refused uploadsDir path_join path_extname k w stamp req fault p _ Hp
             (gate_refuses_size p Hyes Hbig)).
  - intros Hyes Hsmall. pose proof (gate_accepts p Hyes Hsmall) as Hg.
    split; [exact Hg |]. split.
    + destruct (disk_upload_accepted uploadsDir path_join path_extname
                  k w stamp req p Hp Hg)
        as (w' & doc & dest & id & E & Hpath & _ & _ & _ & Hfs & Hnew & Hc).
      exists w', doc, dest, id. rewrite Hc, lookup_insert_eq. repeat split; auto.
    + destruct (gridfs_upload_accepted k w stamp req p Hp Hg)
        as (w' & doc & fid & id & E & Hid & _ & _ & Hfresh & Hb & Hnew & Hc).
      exists w', doc, fid, id. rewrite Hc, lookup_insert_eq. repeat split; auto.
Qed.

Lemma upload_gate_outcomes_witness :
  Content.gate Samples.notes_txt = Content.Next Samples.notes_txt
  ∧ (∃ w' doc fid id,
       Gridfs.upload Content.Material Samples.world_empty Samples.stamp
         (Samples.req_with (Some Samples.notes_txt)) None
         = (w', Content.Reply 200
                  (Content.Saved (Content.uploaded_message Content.Material) doc))
       ∧ Content.fileId doc = Some fid
       ∧ Content.gridfs Samples.world_empty !! fid = None
       ∧ Content.grid_bytes <$> Content.gridfs w' !! fid = Some Samples.ten_bytes
       ∧ Content.collection Content.Material Samples.world_empty !! id = None
       ∧ Content.collection Content.Material w' !! id = Some doc)
  ∧ Disk.upload Samples.uploadsDir Samples.path_join Samples.path_extname
      Content.Material Samples.world_empty Samples.stamp
      (Samples.req_with (Some Samples.setup_exe)) None
    = (Samples.world_empty,
       Content.Reply 500
         (Content.ErrorPage
            "Invalid file type. Please upload educational content files.")).
Proof.
  pose proof (upload_gate_outcomes
                Samples.uploadsDir Samples.path_join Samples.path_extname
                Content.Material Samples.world_empty Samples.stamp
                (Samples.req_with (Some Samples.notes_txt)) None
                Samples.notes_txt eq_refl)
    as (_ & _ & _ & _ & Hok).
  pose proof (upload_gate_outcomes
                Samples.uploadsDir Samples.path_join Samples.path_extname
                Content.Material Samples.world_empty Samples.stamp
                (Samples.req_with (Some Samples.setup_exe)) None
                Samples.setup_exe eq_refl)
    as (_ & _ & Hno & _).
  assert (Content.allowedTypes_test (Content.originalname Samples.notes_txt) = true)
    as Hname by (vm_compute; reflexivity).
  assert (Content.size_of Samples.notes_txt ≤ Content.fileSize_limit)%N
    as Hsize by (vm_compute; discriminate).
  destruct (Hok Hname Hsize) as (Hgate & _ & Hgrid).
  split; [exact Hgate |]. split; [exact Hgrid |].
  apply Hno. vm_compute. reflexivity.
Defined.

(** C3 as written fails on the outcome of a refusal: a file named
    [setup.exe] is refused by both servers, nothing is stored, and the
    answer is HTTP 500, which is not a client-error status. *)
Lemma refused_upload_is_not_a_client_error :
  Content.allowedTypes_test (Content.originalname Samples.setup_exe) = false
  ∧ Gridfs.upload Content.Material Samples.world_empty Samples.stamp
      (Samples.req_with (Some Samples.setup_exe)) None
    = (Samples.world_empty,
       Content.Reply 500
         (Content.ErrorPage
            "Invalid file type. Please upload educational content files."))
  ∧ Content.client_error
      (Gridfs.upload Content.Material Samples.world_empty Samples.stamp
         (Samples.req_with (Some Samples.setup_exe)) None).2 = false
  ∧ Content.client_error
      (Disk.upload Samples.uploadsDir Samples.path_join Samples.path_extname
         Content.Material Samples.world_empty Samples.stamp
         (Samples.req_with (Some Samples.setup_exe)) None).2 = false.
Proof. repeat split. Qed.


(** ** Retrieval of a record without a file reference *)





(** ** Deleting a content record *)

(** What the GridFS delete makes of the file of the record [m], before it
    turns to the record itself. *)
Abbreviation file_gone w m :=
  (match Content.fileId m with
   | Some fid => Gridfs.deleteGridFSFileById w fid
   | None =>
       if Js.truthy (Content.filePath m)
          && Content.existsSync (Content.fsys w) (Content.str (Content.filePath m))
       then
         match Content.unlinkSync (Content.fsys w) (Content.str (Content.filePath m)) with
         | inr fs' => Content.set_fsys fs' w
         | inl _ => w
         end
       else w
   end).

Section Removal.

Import Content.

Variable res_download : gmap string FsEntry → string → option string → Response.

Lemma resolve_absent (w : World) (oid : N) :
  (∀ k, collection k w !! oid = None) → resolve w (ObjectId oid) = inr None.
Proof.
  intros H. apply resolve_none; [apply (H Material) | apply (H Question) | apply (H Update)].
Qed.

Lemma file_gone_frame (w : World) (m : Doc) :
  (∀ k, collection k (file_gone w m) = collection k w)
  ∧ (∀ fid, fileId m = Some fid →
            gridfs (file_gone w m) !! fid = None ∧ fsys (file_gone w m) = fsys w)
  ∧ (∀ fid, gridfs (file_gone w m) !! fid ≠ gridfs w !! fid → fileId m = Some fid)
  ∧ (∀ path, fsys (file_gone w m) !! path ≠ fsys w !! path →
             fileId m = None ∧ filePath m = Some path).
Proof.
  destruct (fileId m) as [fid|].
  - unfold Gridfs.deleteGridFSFileById.
    destruct (gridfs w !! fid) eqn:E; (split; [| split; [| split]]).
    + intros k. apply collection_set_gridfs.
    + intros fid' [= <-]. split; [apply lookup_delete_eq | reflexivity].
    + intros fid' H. simpl in H. destruct (decide (fid = fid')) as [->|Hne];
        [reflexivity |]. rewrite lookup_delete_ne in H by exact Hne. congruence.
    + intros path H. simpl in H. congruence.
    + reflexivity.
    + intros fid' [= <-]. auto.
    + congruence.
    + congruence.
  - destruct (Js.truthy (filePath m)) eqn:Ht; simpl;
      [| repeat split; congruence].
    destruct (filePath m) as [fp|]; [| discriminate Ht]. simpl.
    unfold existsSync, unlinkSync.
    destruct (fsys w !! fp) as [[bytes|]|] eqn:E; simpl;
      (split; [| split; [| split]]); try congruence; try reflexivity.
    intros path H. destruct (decide (fp = path)) as [->|Hne]; [auto |].
    rewrite lookup_delete_ne in H by exact Hne. congruence.
Qed.

(** The delete handlers, once the record has been found. *)
Lemma gridfs_remove_found (k : Kind) (w : World) (oid : N) (m : Doc)
    (fault : option string) :
  collection k w !! oid = Some m →
  Gridfs.remove k w (ObjectId oid) fault
  = match fault with
    | Some message => (file_gone w m, Reply 500 (Failed message))
    | None =>
        (set_collection k (delete oid (collection k (file_gone w m))) (file_gone w m),
         Reply 200 (Message true (deleted_message k)))
    end.
Proof.
  intros H. unfold Gridfs.remove, findById, findByIdAndDelete. rewrite H.
  destruct fault; reflexivity.
Qed.

Lemma disk_remove_found (k : Kind) (w : World) (oid : N) (m : Doc)
    (fault : option string) :
  collection k w !! oid = Some m →
  Disk.remove k w (ObjectId oid) fault
  = if Js.truthy (filePath m) && existsSync (fsys w) (str (filePath m)) then
      match unlinkSync (fsys w) (str (filePath m)) with
      | inl e => (w, Reply 500 (Failed (err_message e)))
      | inr fs' =>
          match fault with
          | Some message => (set_fsys fs' w, Reply 500 (Failed message))
          | None =>
              (set_collection k (delete oid (collection k w)) (set_fsys fs' w),
               Reply 200 (Message true (deleted_message k)))
          end
      end
    else
      match fault with
      | Some message => (w, Reply 500 (Failed message))
      | None =>
          (set_collection k (delete oid (collection k w)) w,
           Reply 200 (Message true (deleted_message k)))
      end.
Proof.
  intros H. unfold Disk.remove, findById, findByIdAndDelete. rewrite H.
  destruct (Js.truthy (filePath m) && existsSync (fsys w) (str (filePath m)));
    [destruct (unlinkSync (fsys w) (str (filePath m))) as [e|fs'] |];
    destruct fault; try reflexivity.
  all: by rewrite collection_set_fsys.
Qed.

Lemma remove_not_found (k : Kind) (w : World) (oid : N) (fault : option string) :
  collection k w !! oid = None →
  Gridfs.remove k w (ObjectId oid) fault
    = (w, Reply 404 (Message false (not_found_message k)))
  ∧ Disk.remove k w (ObjectId oid) fault
    = (w, Reply 404 (Message false (not_found_message k))).
Proof.
  intros H. unfold Gridfs.remove, Disk.remove, findById. rewrite H. auto.
Qed.

Lemma remove_not_an_id (k : Kind) (w : World) (value : string) (fault : option string) :
  Gridfs.remove k w (NotAnObjectId value) fault = (w, Reply 500 (CastFailed value k))
  ∧ Disk.remove k w (NotAnObjectId value) fault = (w, Reply 500 (CastFailed value k)).
Proof. split; reflexivity. Qed.

(** The GridFS server: deleting a record that exists succeeds whenever the
    database deletes the record; the record is then gone, the other
    collections are untouched, and the bucket file it pointed to is gone
    whether or not the bucket held it. *)
Lemma gridfs_remove_succeeds (k : Kind) (w : World) (oid : N) (m : Doc) :
  collection k w !! oid = Some m →
  ∃ w',
    Gridfs.remove k w (ObjectId oid) None
      = (w', Reply 200 (Message true (deleted_message k)))
    ∧ collection k w' !! oid = None
    ∧ (∀ k', k' ≠ k → collection k' w' = collection k' w)
    ∧ (∀ fid, fileId m = Some fid → gridfs w' !! fid = None).
Proof.
  intros Hm. rewrite (gridfs_remove_found k w oid m None Hm).
  destruct (file_gone_frame w m) as (Hc & Hg & _).
  eexists. split; [reflexivity |].
  rewrite collection_set, lookup_delete_eq. split; [reflexivity |]. split.
  - intros k' Hk. rewrite collection_set_other by congruence. apply Hc.
  - intros fid Hfid. rewrite gridfs_set_collection. by apply Hg.
Qed.

(** When the database refuses to delete the record, the answer is HTTP 500
    and the record stays, but its file is gone already. *)
Lemma gridfs_remove_fails_late (k : Kind) (w : World) (oid : N) (m : Doc)
    (message : string) :
  collection k w !! oid = Some m →
  ∃ w',
    Gridfs.remove k w (ObjectId oid) (Some message)
      = (w', Reply 500 (Failed message))
    ∧ (∀ k', collection k' w' = collection k' w)
    ∧ (∀ fid, fileId m = Some fid → gridfs w' !! fid = None).
Proof.
  intros Hm. rewrite (gridfs_remove_found k w oid m _ Hm).
  destruct (file_gone_frame w m) as (Hc & Hg & _).
  eexists. split; [reflexivity |]. split; [exact Hc |].
  intros fid Hfid. by apply Hg.
Qed.

(** A download that follows finds nothing, unless another collection holds
    a record under the same id. *)
Lemma gridfs_download_after_remove (k : Kind) (w : World) (oid : N) (m : Doc) :
  collection k w !! oid = Some m →
  (∀ k', k' ≠ k → collection k' w !! oid = None) →
  Gridfs.download res_download (Gridfs.remove k w (ObjectId oid) None).1 (ObjectId oid)
    = Reply 404 (Message false "File not found").
Proof.
  intros Hm Hothers.
  destruct (gridfs_remove_succeeds k w oid m Hm) as (w' & E & Hgone & Hsame & _).
  rewrite E. simpl. unfold Gridfs.download. rewrite resolve_absent; [reflexivity |].
  intros k'. destruct (decide (k' = k)) as [->|Hne]; [exact Hgone |].
  rewrite Hsame by exact Hne. by apply Hothers.
Qed.

(** The disk server: the same, provided [unlinkSync] does not throw, that
    is, provided the record's path does not name a directory. *)
Lemma disk_remove_succeeds (k : Kind) (w : World) (oid : N) (m : Doc) :
  collection k w !! oid = Some m →
  fsys w !! str (filePath m) ≠ Some Directory →
  ∃ w',
    Disk.remove k w (ObjectId oid) None
      = (w', Reply 200 (Message true (deleted_message k)))
    ∧ collection k w' !! oid = None
    ∧ (Js.truthy (filePath m) = true → fsys w' !! str (filePath m) = None).
Proof.
  intros Hm Hdir. rewrite (disk_remove_found k w oid m None Hm).
  unfold existsSync, unlinkSync.
  destruct (Js.truthy (filePath m)) eqn:Ht; simpl.
  - destruct (fsys w !! str (filePath m)) as [[bytes|]|] eqn:E.
    + eexists. split; [reflexivity |].
      rewrite collection_set, lookup_delete_eq, fsys_set_collection. simpl.
      rewrite lookup_delete_eq. auto.
    + congruence.
    + eexists. split; [reflexivity |].
      rewrite collection_set, lookup_delete_eq, fsys_set_collection. auto.
  - eexists. split; [reflexivity |].
    rewrite collection_set, lookup_delete_eq. split; [reflexivity | discriminate].
Qed.

End Removal.

(** C4 on the failing input.  On the disk server, deleting a material
    whose path names a directory answers HTTP 500 and leaves the record in
    the collection, whatever the database would have done to the delete,
    because [fs.unlinkSync] throws into the handler's [catch]; the GridFS
    server, which wraps the same call in a [try] of its own, deletes the
    record and answers with success. *)
Theorem disk_remove_aborts_when_unlink_throws :
  let id := Content.ObjectId 1 in
  Content.collection Content.Material Samples.world_dir !! 1%N = Some Samples.doc_dir
  ∧ Content.filePath Samples.doc_dir = Some "/srv/app/uploads"
  ∧ Content.fsys Samples.world_dir !! "/srv/app/uploads" = Some Content.Directory
  ∧ (∀ fault,
       Disk.remove Content.Material Samples.world_dir id fault
       = (Samples.world_dir,
          Content.Reply 500
            (Content.Failed
               "EISDIR: illegal operation on a directory, unlink '/srv/app/uploads'")))
  ∧ (∀ fault,
       Content.collection Content.Material
         (Disk.remove Content.Material Samples.world_dir id fault).1 !! 1%N
       = Some Samples.doc_dir)
  ∧ (Gridfs.remove Content.Material Samples.world_dir id None).2
    = Content.Reply 200 (Content.Message true "Material deleted successfully")
  ∧ Content.collection Content.Material
      (Gridfs.remove Content.Material Samples.world_dir id None).1 !! 1%N
    = None.
Proof. cbv zeta. repeat split. Qed.

(** ** The two variants of the file reference *)

Section Exclusivity.

Import Content.

Variable uploadsDir : string.
Variable path_join : string → string → string.
Variable path_extname : string → string.
Variable res_download : gmap string FsEntry → string → option string → Response.

Lemma exclusive_ext (w w' : World) :
  (∀ k, collection k w' = collection k w) → exclusive w → exclusive w'.
Proof. intros H Hw k id d. rewrite H. apply Hw. Qed.

Lemma exclusive_set_collection (k : Kind) (c : gmap N Doc) (w : World) :
  exclusive w →
  (∀ id d, c !! id = Some d → both_populated d = false) →
  exclusive (set_collection k c w).
Proof.
  intros Hw Hc k' id d. destruct (decide (k = k')) as [<-|Hne].
  - rewrite collection_set. apply Hc.
  - rewrite collection_set_other by exact Hne. apply Hw.
Qed.

Lemma exclusive_insert (k : Kind) (id : N) (doc : Doc) (w : World) :
  exclusive w → both_populated doc = false →
  exclusive (set_collection k (<[id := doc]> (collection k w)) w).
Proof.
  intros Hw Hdoc. apply exclusive_set_collection; [exact Hw |].
  intros id' d. rewrite lookup_insert. case_decide.
  - intros [= <-]. exact Hdoc.
  - apply Hw.
Qed.

Lemma exclusive_delete (k : Kind) (id : N) (w : World) :
  exclusive w → exclusive (set_collection k (delete id (collection k w)) w).
Proof.
  intros Hw. apply exclusive_set_collection; [exact Hw |].
  intros id' d. rewrite lookup_delete. case_decide; [discriminate | apply Hw].
Qed.

Lemma exclusive_set_fsys (f : gmap string FsEntry) (w : World) :
  exclusive w → exclusive (set_fsys f w).
Proof. apply exclusive_ext. intros k. apply collection_set_fsys. Qed.

Lemma exclusive_set_gridfs (g : gmap N GridFile) (w : World) :
  exclusive w → exclusive (set_gridfs g w).
Proof. apply exclusive_ext. intros k. apply collection_set_gridfs. Qed.

Lemma exclusive_deleteGridFSFileById (w : World) (fid : N) :
  exclusive w → exclusive (Gridfs.deleteGridFSFileById w fid).
Proof.
  intros Hw. unfold Gridfs.deleteGridFSFileById.
  destruct (gridfs w !! fid); [by apply exclusive_set_gridfs | exact Hw].
Qed.

Lemma exclusive_save (k : Kind) (w w' : World) (doc : Doc) (fault : option string) :
  exclusive w → both_populated doc = false →
  save k w doc fault = inr w' → exclusive w'.
Proof.
  intros Hw Hdoc. unfold save. destruct fault; [discriminate |].
  intros [= <-]. by apply exclusive_insert.
Qed.

Lemma exclusive_findByIdAndDelete (k : Kind) (w w' : World) (id : IdParam)
    (fault : option string) :
  exclusive w → findByIdAndDelete k w id fault = inr w' → exclusive w'.
Proof.
  intros Hw. unfold findByIdAndDelete. destruct id as [oid|value]; [| discriminate].
  destruct fault; [discriminate |]. intros [= <-]. by apply exclusive_delete.
Qed.

(** What an upload stores has exactly one variant: the path on the disk
    server, the bucket id on the GridFS server; and the record it answers
    with is the record it has stored, under an id new to the collection. *)
Lemma disk_upload_one_variant k w stamp req fault w' message doc :
  Disk.upload uploadsDir path_join path_extname k w stamp req fault
    = (w', Reply 200 (Saved message doc)) →
  (∃ path, filePath doc = Some path) ∧ fileId doc = None
  ∧ exactly_one_populated doc = true
  ∧ ∃ oid, collection k w !! oid = None ∧ collection k w' !! oid = Some doc.
Proof.
  unfold Disk.upload, Disk.upload_single.
  destruct (file_part req) as [p|]; [| discriminate].
  destruct (gate p) as [p'|e]; simpl.
  - unfold save. destruct fault as [m|]; [discriminate |].
    intros [= <- _ <-]. split; [eauto |]. split; [reflexivity |].
    split; [reflexivity |].
    exists (fresh (dom (collection k w))).
    rewrite collection_set, collection_set_fsys.
    split; [apply fresh_id_is_new | apply lookup_insert_eq].
  - intros [= _ H]. exfalso. revert H. unfold default_error_handler.
    destruct (err_status e) as [s|]; [destruct (_ && _) |]; discriminate.
Qed.

Lemma gridfs_upload_one_variant k w stamp req fault w' message doc :
  Gridfs.upload k w stamp req fault = (w', Reply 200 (Saved message doc)) →
  (∃ fid, fileId doc = Some fid) ∧ filePath doc = None
  ∧ exactly_one_populated doc = true
  ∧ ∃ oid, collection k w !! oid = None ∧ collection k w' !! oid = Some doc.
Proof.
  unfold Gridfs.upload, Gridfs.upload_single.
  destruct (file_part req) as [p|]; [| discriminate].
  destruct (gate p) as [p'|e]; simpl.
  - unfold save. destruct fault as [m|]; [discriminate |].
    intros [= <- _ <-]. split; [eauto |]. split; [reflexivity |].
    split; [reflexivity |].
    exists (fresh (dom (collection k w))).
    rewrite collection_set, collection_set_gridfs.
    split; [apply fresh_id_is_new | apply lookup_insert_eq].
  - intros [= _ H]. exfalso. revert H. unfold default_error_handler.
    destruct (err_status e) as [s|]; [destruct (_ && _) |]; discriminate.
Qed.

Lemma disk_step_exclusive (w : World) (op : Op) :
  exclusive w →
  exclusive (Disk.step uploadsDir path_join path_extname res_download w op).1.
Proof.
  intros Hw.
  destruct op as [k stamp req fault | id | id | k id fault]; simpl; try exact Hw.
  - unfold Disk.upload, Disk.upload_single.
    destruct (file_part req) as [p|]; [| exact Hw].
    destruct (gate p) as [p'|e]; simpl; [| exact Hw].
    destruct (save _ _ _ _) as [e|w2] eqn:E; simpl.
    + by apply exclusive_set_fsys.
    + eapply exclusive_save; [| | exact E]; [by apply exclusive_set_fsys | reflexivity].
  - unfold Disk.remove. destruct (findById k w id) as [e|[m|]]; try exact Hw.
    destruct (Js.truthy (filePath m) && existsSync (fsys w) (str (filePath m))).
    + destruct (unlinkSync (fsys w) (str (filePath m))) as [e|fs']; simpl;
        [exact Hw |].
      destruct (findByIdAndDelete _ _ _ _) as [e|w2] eqn:E; simpl.
      * by apply exclusive_set_fsys.
      * eapply exclusive_findByIdAndDelete; [| exact E]. by apply exclusive_set_fsys.
    + destruct (findByIdAndDelete _ _ _ _) as [e|w2] eqn:E; simpl; [exact Hw |].
      eapply exclusive_findByIdAndDelete; [| exact E]. exact Hw.
Qed.

Lemma gridfs_step_exclusive (w : World) (op : Op) :
  exclusive w → exclusive (Gridfs.step res_download w op).1.
Proof.
  intros Hw.
  destruct op as [k stamp req fault | id | id | k id fault]; simpl; try exact Hw.
  - unfold Gridfs.upload, Gridfs.upload_single.
    destruct (file_part req) as [p|]; [| exact Hw].
    destruct (gate p) as [p'|e]; simpl; [| exact Hw].
    destruct (save _ _ _ _) as [e|w2] eqn:E; simpl.
    + by apply exclusive_set_gridfs.
    + eapply exclusive_save; [| | exact E]; [by apply exclusive_set_gridfs | reflexivity].
  - unfold Gridfs.remove. destruct (findById k w id) as [e|[m|]]; try exact Hw.
    match goal with
    | |- exclusive (match findByIdAndDelete _ ?w1 _ _ with _ => _ end).1 =>
        assert (exclusive w1) as Hw1
    end.
    { destruct (fileId m) as [fid|];
        [by apply exclusive_deleteGridFSFileById |].
      destruct (Js.truthy (filePath m) && existsSync (fsys w) (str (filePath m)));
        [| exact Hw].
      destruct (unlinkSync (fsys w) (str (filePath m)));
        [exact Hw | by apply exclusive_set_fsys]. }
    destruct (findByIdAndDelete _ _ _ _) as [e|w2] eqn:E; simpl; [exact Hw1 |].
    eapply exclusive_findByIdAndDelete; [| exact E]. exact Hw1.
Qed.

Lemma disk_run_exclusive (ops : list Op) :
  ∀ w, exclusive w →
       exclusive (Disk.run uploadsDir path_join path_extname res_download w ops).
Proof.
  induction ops as [|op ops IH]; intros w Hw; [exact Hw |].
  apply IH, disk_step_exclusive, Hw.
Qed.

Lemma gridfs_run_exclusive (ops : list Op) :
  ∀ w, exclusive w → exclusive (Gridfs.run res_download w ops).
Proof.
  induction ops as [|op ops IH]; intros w Hw; [exact Hw |].
  apply IH, gridfs_step_exclusive, Hw.
Qed.

End Exclusivity.

(** C8, as the code has it.  From a state in which no record has both a
    path and a bucket id, no sequence of uploads, downloads, views and
    deletions, on either server, whatever the database does to their
    writes, leads to a state in which some record has both.  And the
    record an upload stores, which is the record it answers with, has
    exactly one of the two: on the disk server a path and no bucket id, on
    the GridFS server a bucket id and a null path. *)
Theorem upload_retrieval_delete_keep_one_variant
    (uploadsDir : string) (path_join : string → string → string)
    (path_extname : string → string)
    (res_download :
       gmap string Content.FsEntry → string → option string → Content.Response)
    (w : Content.World) (ops : list Content.Op) :
  Content.exclusive w →
  Content.exclusive (Disk.run uploadsDir path_join path_extname res_download w ops)
  ∧ Content.exclusive (Gridfs.run res_download w ops)
  ∧ (∀ k w0 stamp req fault w' message doc,
       Disk.upload uploadsDir path_join path_extname k w0 stamp req fault
         = (w', Content.Reply 200 (Content.Saved message doc)) →
       (∃ path, Content.filePath doc = Some path)
       ∧ Content.fileId doc = None
       ∧ Content.exactly_one_populated doc = true
       ∧ ∃ oid, Content.collection k w0 !! oid = None
                ∧ Content.collection k w' !! oid = Some doc)
  ∧ (∀ k w0 stamp req fault w' message doc,
       Gridfs.upload k w0 stamp req fault
         = (w', Content.Reply 200 (Content.Saved message doc)) →
       (∃ fid, Content.fileId doc = Some fid)
       ∧ Content.filePath doc = None
       ∧ Content.exactly_one_populated doc = true
       ∧ ∃ oid, Content.collection k w0 !! oid = None
                ∧ Content.collection k w' !! oid = Some doc).
Proof.
  intros Hw. split; [by apply disk_run_exclusive |].
  split; [by apply gridfs_run_exclusive |]. split.
  - intros k w0 stamp req fault w' message doc.
    apply disk_upload_one_variant.
  - intros k w0 stamp req fault w' message doc.
    apply gridfs_upload_one_variant.
Qed.

Lemma world_empty_exclusive : Content.exclusive Samples.world_empty.
Proof. intros k id d. destruct k; simpl; rewrite lookup_empty; discriminate. Qed.

Lemma upload_retrieval_delete_keep_one_variant_witness :
  let ops := [Content.Upload Content.Material Samples.stamp
                (Samples.req_with (Some Samples.notes_txt)) None;
              Content.Download (Content.ObjectId 0);
              Content.Upload Content.Question Samples.stamp
                (Samples.req_with (Some Samples.notes_txt)) (Some "write failed");
              Content.Remove Content.Material (Content.ObjectId 0) None] in
  Content.exclusive
    (Disk.run Samples.uploadsDir Samples.path_join Samples.path_extname
       Samples.res_download Samples.world_empty ops)
  ∧ Content.exclusive (Gridfs.run Samples.res_download Samples.world_empty ops)
  ∧ (∃ doc fid,
       (Gridfs.upload Content.Material Samples.world_empty Samples.stamp
          (Samples.req_with (Some Samples.notes_txt)) None).2
       = Content.Reply 200 (Content.Saved "Material uploaded successfully" doc)
       ∧ Content.fileId doc = Some fid ∧ Content.filePath doc = None).
Proof.
  cbv zeta.
  match goal with
  | |- Content.exclusive (Disk.run _ _ _ _ _ ?ops) ∧ _ =>
      pose proof (upload_retrieval_delete_keep_one_variant
                    Samples.uploadsDir Samples.path_join Samples.path_extname
                    Samples.res_download Samples.world_empty ops world_empty_exclusive)
        as (Hd & Hg & _ & Hup)
  end.
  split; [exact Hd |]. split; [exact Hg |].
  destruct (Gridfs.upload Content.Material Samples.world_empty Samples.stamp
              (Samples.req_with (Some Samples.notes_txt)) None) as [w' resp] eqn:E.
  assert (∃ doc, resp = Content.Reply 200
                          (Content.Saved "Material uploaded successfully" doc))
    as [doc ->].
  { injection E as _ <-. eexists. reflexivity. }
  destruct (Hup _ _ _ _ _ _ _ _ E) as ([fid Hfid] & Hpath & _).
  exists doc, fid. auto.
Defined.

(** C8 as written fails on records that do not come from an upload:
    [POST /api/materials] stores the JSON body as it is, and a body with
    both a path and a bucket id becomes a record with both. *)
Lemma json_body_stores_both_variants :
  ∃ id,
    Content.collection Content.Material
      (Gridfs.post Content.Material Samples.world_empty Samples.doc_both None).1 !! id
      = Some Samples.doc_both
    ∧ Content.populated (Content.fileId Samples.doc_both) = true
    ∧ Content.populated (Content.filePath Samples.doc_both) = true
    ∧ Content.exactly_one_populated Samples.doc_both = false
    ∧ ¬ Content.exclusive
          (Gridfs.post Content.Material Samples.world_empty Samples.doc_both None).1.
Proof.
  exists (fresh (dom (Content.collection Content.Material Samples.world_empty))).
  assert (Content.collection Content.Material
            (Gridfs.post Content.Material Samples.world_empty Samples.doc_both None).1
            !! fresh (dom (Content.collection Content.Material Samples.world_empty))
          = Some Samples.doc_both) as E by apply lookup_insert_eq.
  split; [exact E |]. do 3 (split; [reflexivity |]).
  intros H. specialize (H _ _ _ E). discriminate.
Qed.

(** ** Scenarios *)

(** A ten-byte text file uploaded with title "Week1" is stored with its
    type and size, and viewing the new record returns those ten bytes
    inline under the original name, on both servers. *)
Example upload_then_view :
  let up := Gridfs.upload Content.Material Samples.world_empty Samples.stamp
              (Samples.req_with (Some Samples.notes_txt)) None in
  let up' := Disk.upload Samples.uploadsDir Samples.path_join Samples.path_extname
               Content.Material Samples.world_empty Samples.stamp
               (Samples.req_with (Some Samples.notes_txt)) None in
  let inline :=
    Content.Reply 200
      (Content.Stream "text/plain"
         ("inline; filename=" ++ Content.dquote ++ "notes.TXT" ++ Content.dquote)
         Samples.ten_bytes) in
  (∃ doc, up.2 = Content.Reply 200 (Content.Saved "Material uploaded successfully" doc)
          ∧ Content.fileType doc = Some "text/plain"
          ∧ Content.fileSize doc = Some 10%N)
  ∧ Gridfs.view up.1 (Content.ObjectId 0) = inline
  ∧ Disk.view Samples.uploadsDir Samples.path_join up'.1 (Content.ObjectId 0) = inline.
Proof.
  cbv zeta. split; [eexists; split; [reflexivity | split; reflexivity] |].
  split; vm_compute; reflexivity.
Qed.

(** Deleting an uploaded material on the GridFS server removes the bucket
    file and the record, and a download that follows is answered 404. *)
Example upload_delete_download :
  let w1 := (Gridfs.upload Content.Material Samples.world_empty Samples.stamp
               (Samples.req_with (Some Samples.notes_txt)) None).1 in
  let w2 := (Gridfs.remove Content.Material w1 (Content.ObjectId 0) None).1 in
  Content.gridfs w2 = ∅
  ∧ Gridfs.download Samples.res_download w2 (Content.ObjectId 0)
    = Content.Reply 404 (Content.Message false "File not found").
Proof. cbv zeta. split; vm_compute; reflexivity. Qed.

(** An upload whose record the database refuses is answered HTTP 500 and
    leaves its file in the bucket, with no record that points to it. *)
Example upload_with_failing_save :
  let out := Gridfs.upload Content.Material Samples.world_empty Samples.stamp
               (Samples.req_with (Some Samples.notes_txt)) (Some "write failed") in
  out.2 = Content.Reply 500 (Content.Failed "write failed")
  ∧ Content.materials out.1 = ∅
  ∧ Content.grid_bytes <$> Content.gridfs out.1 !! 0%N = Some Samples.ten_bytes.
Proof. cbv zeta. split; [| split]; vm_compute; reflexivity. Qed.


(** * Further properties of the person routes *)

Lemma people_set_set (r : People.Role) c1 c2 db :
  People.set_collection r c2 (People.set_collection r c1 db)
  = People.set_collection r c2 db.
Proof. destruct r; reflexivity. Qed.

(** X1. Registering a new person and then deleting that [userId] gives back
    the database as it was: the insert stores and answers with the
    document mongoose builds from the body (the fields of the role's
    schema), the delete answers with [deletedCount = 1]. *)
Theorem post_then_delete_restores
    (fault : People.Person → option string) (r : People.Role)
    (db : People.Db) (d : People.Person) :
  fault (People.new_Model r d) = None →
  People.collection r db !! People.userId d = None →
  People.userId d ≠ "" →
  People.post fault r db d
    = (People.set_collection r
         (<[People.userId d := People.new_Model r d]> (People.collection r db)) db,
       People.mkResponse 200 (People.Created (People.new_Model r d)))
  ∧ People.delete_individual r (People.post fault r db d).1 (Some (People.userId d))
    = (db, People.mkResponse 200 (People.Deleted 1)).
Proof.
  intros Hf Hnew Hu.
  pose proof (post_fresh fault r db d Hf Hnew) as E.
  split; [exact E |]. rewrite E. simpl.
  unfold People.delete_individual. rewrite (truthy_Some_ne _ Hu). simpl.
  unfold People.deleteOne. rewrite people_collection_set, lookup_insert_eq. simpl.
  rewrite people_set_set, delete_insert_id by exact Hnew.
  rewrite people_set_collection_same. reflexivity.
Qed.

Lemma post_then_delete_restores_witness :
  People.post Samples.no_fault People.Faculty Samples.db_alice Samples.bob
    = (People.set_collection People.Faculty
         (<["s2" := People.mkPerson "Bob" "s2" "pw" "556" None (Some "CSE") None]>
            (People.collection People.Faculty Samples.db_alice))
         Samples.db_alice,
       People.mkResponse 200
         (People.Created (People.mkPerson "Bob" "s2" "pw" "556" None (Some "CSE") None)))
  ∧ People.delete_individual People.Faculty
      (People.post Samples.no_fault People.Faculty Samples.db_alice Samples.bob).1
      (Some "s2")
    = (Samples.db_alice, People.mkResponse 200 (People.Deleted 1)).
Proof.
  apply (post_then_delete_restores
           Samples.no_fault People.Faculty Samples.db_alice Samples.bob);
    [reflexivity | reflexivity | discriminate].
Defined.

Section BulkComposition.

Variable fault : People.Person → option string.

Lemma bulk_loop_app (r : People.Role) (l1 l2 : list People.Person) :
  ∀ (c : gmap string People.Person) rs ds n,
    People.bulk_loop fault r c (l1 ++ l2)%list rs ds n
    = People.bulk_loop fault r (People.bulk_loop fault r c l1 rs ds n).1 l2
        (People.bulk_loop fault r c l1 rs ds n).2.1.1
        (People.bulk_loop fault r c l1 rs ds n).2.1.2
        (People.bulk_loop fault r c l1 rs ds n).2.2.
Proof.
  induction l1 as [|d rest IH]; intros c rs ds n; simpl; [reflexivity |].
  destruct (People.save fault c (People.new_Model r d)) as [[|m]|c']; apply IH.
Qed.

Lemma post_bulk_cons_state r db d (rest : list People.Person) :
  (People.post_bulk fault r db (d :: rest)).1
  = (People.post_bulk fault r (People.post fault r db d).1 rest).1.
Proof.
  unfold People.post_bulk, People.post. simpl.
  destruct (People.save fault (People.collection r db) (People.new_Model r d))
    as [[|m]|c'] eqn:E; simpl.
  - destruct (People.bulk_loop fault r (People.collection r db) rest [] _ 0)
      as [c1 [[rs1 ds1] n1]] eqn:E1.
    rewrite bulk_loop_spec in E1. injection E1 as <- _ _ _.
    rewrite bulk_loop_spec. reflexivity.
  - rewrite !bulk_loop_spec. reflexivity.
  - rewrite people_collection_set, !bulk_loop_spec. simpl.
    symmetry. apply people_set_set.
Qed.

(** Every non-failing item of a batch has its [userId] in the collection
    once the batch has run. *)
Lemma nonfailing_present (items : list People.Person) :
  ∀ (present : gset string) d,
    d ∈ items → fault d = None →
    People.userId d
      ∈ present ∪ list_to_set (People.userId <$> People.stored fault present items).
Proof.
  induction items as [|x rest IH]; intros present d Hd Hf; [inversion Hd |].
  simpl. apply elem_of_cons in Hd as [->|Hd].
  - rewrite Hf. destruct (decide (People.userId x ∈ present)).
    + apply elem_of_union. by left.
    + rewrite fmap_cons. set_solver.
  - destruct (fault x) as [m|]; [by apply IH |].
    destruct (decide (People.userId x ∈ present)); [by apply IH |].
    specialize (IH ({[People.userId x]} ∪ present) d Hd Hf).
    rewrite fmap_cons. set_solver.
Qed.

(** An item that the database does not refuse and whose [userId] is
    present is reported as a duplicate. *)
Lemma present_collides (items : list People.Person) :
  ∀ (present : gset string) d,
    d ∈ items → fault d = None → People.userId d ∈ present →
    People.userId d ∈ People.collisions fault present items.
Proof.
  induction items as [|x rest IH]; intros present d Hd Hf Hin; [inversion Hd |].
  simpl. apply elem_of_cons in Hd as [->|Hd].
  - rewrite Hf, decide_True by exact Hin. by left.
  - destruct (fault x) as [m|]; [by apply IH |].
    destruct (decide (People.userId x ∈ present)).
    + right. by apply IH.
    + apply IH; auto. set_solver.
Qed.

Lemma all_present_nothing_stored (items : list People.Person) (present : gset string) :
  (∀ d, d ∈ items → fault d = None → People.userId d ∈ present) →
  People.stored fault present items = []
  ∧ People.collisions fault present items
    = People.userId <$> filter (λ d, fault d = None) items.
Proof.
  induction items as [|x rest IH]; intros H; [split; reflexivity |].
  destruct IH as [IHs IHc]; [intros d Hd; apply H; by right |].
  simpl. destruct (fault x) as [m|] eqn:Hf.
  - rewrite filter_cons_False by (rewrite Hf; discriminate). auto.
  - rewrite filter_cons_True by exact Hf.
    rewrite !decide_True by (apply H; [by left | exact Hf]).
    rewrite fmap_cons, IHc. auto.
Qed.

End BulkComposition.

(** X2. A batch sent in two requests leaves the same database as the batch sent
    in one, and the one answer is the two answers put together:
    [addedCount] is the sum, [duplicates] and [data] are the
    concatenations.  The database is taken to treat each document in the
    same way either way. *)
Theorem bulk_insert_splits
    (fault : People.Person → option string) (r : People.Role)
    (db : People.Db) (l1 l2 : list People.Person) :
  let out1 := People.post_bulk fault r db l1 in
  let out2 := People.post_bulk fault r out1.1 l2 in
  ∃ n1 d1 r1 n2 d2 r2,
    out1.2 = People.mkResponse 200 (People.BulkResult n1 d1 r1)
    ∧ out2.2 = People.mkResponse 200 (People.BulkResult n2 d2 r2)
    ∧ People.post_bulk fault r db (l1 ++ l2)%list
      = (out2.1,
         People.mkResponse 200
           (People.BulkResult (n1 + n2) (d1 ++ d2)%list (r1 ++ r2)%list)).
Proof.
  intros out1 out2. subst out2 out1.
  rewrite (post_bulk_unfold fault r db l1). simpl.
  rewrite post_bulk_unfold. simpl. rewrite people_collection_set.
  set (c := People.collection r db).
  set (c1 := foldl _ c _).
  do 6 eexists. split; [reflexivity |]. split; [reflexivity |].
  unfold People.post_bulk. fold c. rewrite bulk_loop_app.
  rewrite (bulk_loop_spec fault r l1 c). simpl. fold c1.
  rewrite bulk_loop_spec. rewrite people_set_set. reflexivity.
Qed.

(** X3. As far as the database goes, the bulk route is the single-insert route
    run on each item in turn, the database treating each document in the
    same way either way. *)
Theorem bulk_insert_is_posts_in_sequence
    (fault : People.Person → option string) (r : People.Role)
    (db : People.Db) (items : list People.Person) :
  (People.post_bulk fault r db items).1
  = foldl (λ db d, (People.post fault r db d).1) db items.
Proof.
  revert db. induction items as [|d rest IH]; intros db.
  - unfold People.post_bulk. simpl. apply people_set_collection_same.
  - rewrite post_bulk_cons_state. simpl. apply IH.
Qed.

(** X4. Sending the same batch a second time, when the database may treat
    the writes of the second request differently from those of the first.
    The second run stores only documents that the first run lost to an
    error other than a duplicate and that the database accepts now; every
    document that neither run refuses is reported as a duplicate.  When
    whatever the first run refused is refused again (failures that belong
    to the document, not to the moment), the second run stores nothing:
    the database stays as the first run left it, [addedCount] is 0, [data]
    is empty, and [duplicates] lists, in order, the [userId] of every item
    that is not refused. *)
Theorem bulk_insert_twice
    (fault1 fault2 : People.Person → option string) (r : People.Role)
    (db : People.Db) (items : list People.Person) :
  let docs := People.new_Model r <$> items in
  let out1 := People.post_bulk fault1 r db items in
  let out2 := People.post_bulk fault2 r out1.1 items in
  (∃ n ds data,
     out2.2 = People.mkResponse 200 (People.BulkResult n ds data)
     ∧ n = length data
     ∧ (∀ d, d ∈ data → d ∈ docs ∧ fault1 d ≠ None ∧ fault2 d = None)
     ∧ (∀ d, d ∈ docs → fault1 d = None → fault2 d = None → People.userId d ∈ ds))
  ∧ ((∀ d, d ∈ docs → fault1 d ≠ None → fault2 d ≠ None) →
     out2 = (out1.1,
             People.mkResponse 200
               (People.BulkResult 0
                  (People.userId <$> filter (λ d, fault2 d = None) docs) []))).
Proof.
  intros docs out1 out2. subst out2 out1.
  rewrite (post_bulk_unfold fault1 r db items). simpl.
  set (c := People.collection r db). fold docs.
  destruct (stored_in_final fault1 docs c) as (_ & _ & _ & Hdom).
  set (c1 := foldl _ c _) in *.
  rewrite post_bulk_unfold. simpl. rewrite people_collection_set. fold docs.
  assert (∀ d, d ∈ docs → fault1 d = None → People.userId d ∈ dom c1) as Hin.
  { intros d Hd Hf. rewrite Hdom. by apply nonfailing_present. }
  split.
  - do 3 eexists. split; [reflexivity |]. split; [reflexivity |]. split.
    + intros d Hd. apply stored_ok in Hd as (Hd & Hf2 & Hout).
      split; [exact Hd |]. split; [| exact Hf2].
      intros Hf1. apply Hout. by apply Hin.
    + intros d Hd Hf1 Hf2. apply present_collides; auto.
  - intros Hagain.
    destruct (all_present_nothing_stored fault2 docs (dom c1)) as [Hs Hc].
    { intros d Hd Hf2. apply Hin; [exact Hd |].
      destruct (fault1 d) as [m|] eqn:Hf1; [| reflexivity].
      exfalso. apply (Hagain d Hd); [by rewrite Hf1 | exact Hf2]. }
    rewrite Hs, Hc. simpl. rewrite people_set_set. reflexivity.
Qed.

Lemma bulk_insert_twice_witness :
  let items := [Samples.alice; Samples.bob] in
  let out1 := People.post_bulk Samples.fault_s2 People.Student Samples.db_empty items in
  People.post_bulk Samples.fault_s2 People.Student out1.1 items
  = (out1.1, People.mkResponse 200 (People.BulkResult 0 ["s1"] [])).
Proof.
  cbv zeta.
  apply (bulk_insert_twice Samples.fault_s2 Samples.fault_s2 People.Student
           Samples.db_empty [Samples.alice; Samples.bob]).
  intros d _ H. exact H.
Defined.

(** The same batch of two, the second item refused by the database the
    first time and not the second: the second run stores it. *)
Example bulk_insert_retry_stores_what_failed :
  let items := [Samples.alice; Samples.bob] in
  let out1 := People.post_bulk Samples.fault_s2 People.Student Samples.db_empty items in
  out1.2 = People.mkResponse 200 (People.BulkResult 1 [] [Samples.alice])
  ∧ (People.post_bulk Samples.no_fault People.Student out1.1 items).2
    = People.mkResponse 200 (People.BulkResult 1 ["s1"] [Samples.bob]).
Proof. cbv zeta. rewrite !post_bulk_unfold. split; vm_compute; reflexivity. Qed.


(** * Login and deletion by filter *)

Section AccountsFacts.

Import People Accounts.

Lemma field_matches_truthy (q v : option string) :
  Js.truthy q = true → (Query.field_matches q v = true ↔ v = q).
Proof.
  intros H. unfold Query.field_matches. rewrite H. apply bool_decide_eq_true.
Qed.

Lemma field_matches_absent (q v : option string) :
  Js.truthy q = false → Query.field_matches q v = true.
Proof. intros H. unfold Query.field_matches. rewrite H. reflexivity. Qed.

Lemma role_name_inj (r r' : Role) : role_name r = role_name r' → r = r'.
Proof. destruct r, r'; simpl; intros H; first [reflexivity | discriminate H]. Qed.

Lemma login_user_role (db : Db) (b : LoginBody) (r : Role) :
  userType b = role_name r →
  login_user db b
  = match r with
    | Student =>
        match students db !! login_userId b with
        | Some u =>
            if Query.field_matches (login_year b) (year u)
               && Query.field_matches (login_department b) (department u)
            then Some u else None
        | None => None
        end
    | _ => collection r db !! login_userId b
    end.
Proof. intros H. unfold login_user. rewrite H. destruct r; reflexivity. Qed.

Lemma login_user_unknown (db : Db) (b : LoginBody) :
  (∀ r, userType b ≠ role_name r) → login_user db b = None.
Proof.
  intros H. unfold login_user.
  destruct (String.eqb_spec (userType b) "student") as [E|_];
    [exfalso; apply (H Student E) |].
  destruct (String.eqb_spec (userType b) "faculty") as [E|_];
    [exfalso; apply (H Faculty E) |].
  destruct (String.eqb_spec (userType b) "admin") as [E|_];
    [exfalso; apply (H Admin E) |].
  reflexivity.
Qed.

Lemma login_user_spec (db : Db) (b : LoginBody) (u : Person) :
  login_user db b = Some u
  ↔ ∃ r, userType b = role_name r
         ∧ collection r db !! login_userId b = Some u
         ∧ (r = Student →
            Query.field_matches (login_year b) (year u) = true
            ∧ Query.field_matches (login_department b) (department u) = true).
Proof.
  split.
  - intros H.
    assert ((∃ r, userType b = role_name r) ∨ (∀ r, userType b ≠ role_name r))
      as [[r Hr]|Hno].
    { destruct (String.eqb_spec (userType b) "student") as [E|N1];
        [left; by exists Student |].
      destruct (String.eqb_spec (userType b) "faculty") as [E|N2];
        [left; by exists Faculty |].
      destruct (String.eqb_spec (userType b) "admin") as [E|N3];
        [left; by exists Admin |].
      right. intros []; assumption. }
    + exists r. split; [exact Hr |]. rewrite (login_user_role db b r Hr) in H.
      destruct r; simpl.
      * destruct (students db !! login_userId b) as [u'|]; [| discriminate].
        destruct (Query.field_matches (login_year b) (year u')) eqn:Ey;
          destruct (Query.field_matches (login_department b) (department u')) eqn:Ed;
          simpl in H; try discriminate.
        injection H as <-. auto.
      * split; [exact H | discriminate].
      * split; [exact H | discriminate].
    + rewrite login_user_unknown in H; [discriminate | exact Hno].
  - intros (r & Hr & Hu & Hf). rewrite (login_user_role db b r Hr).
    destruct r; simpl in *; try exact Hu.
    rewrite Hu. destruct (Hf eq_refl) as [-> ->]. reflexivity.
Qed.

End AccountsFacts.

(** X6. The login answers HTTP 200 in both cases.  It answers with a user
    exactly when [userType] names one of the three roles, that role's
    collection holds a document under the given [userId], the document's
    password equals the given one, and, for a student only, the [year] and
    [department] of the request, where given, equal those of the document.
    In every other case the answer is "Invalid credentials". *)
Theorem login_succeeds_iff (db : People.Db) (b : Accounts.LoginBody) :
  (∀ u type,
     Accounts.login db b = (200, Accounts.LoggedIn u type)
     ↔ type = Accounts.userType b
       ∧ ∃ r, Accounts.userType b = Accounts.role_name r
              ∧ People.collection r db !! Accounts.login_userId b = Some u
              ∧ People.password u = Accounts.login_password b
              ∧ (r = People.Student →
                 Query.field_matches (Accounts.login_year b) (People.year u) = true
                 ∧ Query.field_matches (Accounts.login_department b)
                     (People.department u) = true))
  ∧ ((∃ u, Accounts.login db b = (200, Accounts.LoggedIn u (Accounts.userType b)))
     ∨ Accounts.login db b = (200, Accounts.LoginRefused "Invalid credentials")).
Proof.
  split.
  - intros u type. unfold Accounts.login. split.
    + destruct (Accounts.login_user db b) as [u'|] eqn:E; [| discriminate].
      destruct (String.eqb_spec (People.password u') (Accounts.login_password b))
        as [Hp|Hp]; [| discriminate].
      intros [= <- <-]. split; [reflexivity |].
      apply login_user_spec in E as (r & Hr & Hu & Hf). exists r. auto.
    + intros (-> & r & Hr & Hu & Hp & Hf).
      assert (Accounts.login_user db b = Some u) as ->
        by (apply login_user_spec; eauto).
      rewrite Hp, String.eqb_refl. reflexivity.
  - unfold Accounts.login.
    destruct (Accounts.login_user db b) as [u'|]; [| by right].
    destruct (String.eqb (People.password u') (Accounts.login_password b));
      [left; eauto | by right].
Qed.

(** X7. A person registered through [POST /api/<role>] can log in under that
    role with the registered password and no filters, and is answered with
    the stored document (the fields of the role's schema); with any other
    password the login is refused. *)
Theorem registered_person_can_log_in
    (fault : People.Person → option string) (r : People.Role)
    (db : People.Db) (d : People.Person) :
  fault (People.new_Model r d) = None →
  People.collection r db !! People.userId d = None →
  let db1 := (People.post fault r db d).1 in
  Accounts.login db1
    (Accounts.mkLoginBody (People.userId d) (People.password d)
       (Accounts.role_name r) None None)
    = (200, Accounts.LoggedIn (People.new_Model r d) (Accounts.role_name r))
  ∧ ∀ pw, pw ≠ People.password d →
      Accounts.login db1
        (Accounts.mkLoginBody (People.userId d) pw (Accounts.role_name r) None None)
      = (200, Accounts.LoginRefused "Invalid credentials").
Proof.
  intros Hf Hnew db1.
  assert (People.collection r db1 !! People.userId d = Some (People.new_Model r d))
    as Hd.
  { subst db1. rewrite (post_fresh _ _ _ _ Hf Hnew). simpl.
    rewrite people_collection_set. apply lookup_insert_eq. }
  assert (∀ pw, Accounts.login_user db1
                  (Accounts.mkLoginBody (People.userId d) pw
                     (Accounts.role_name r) None None)
                = Some (People.new_Model r d)) as Hu.
  { intros pw. apply login_user_spec. exists r. simpl. auto. }
  split.
  - unfold Accounts.login. rewrite Hu. simpl.
    rewrite password_new_Model, String.eqb_refl. reflexivity.
  - intros pw Hpw. unfold Accounts.login. rewrite Hu. simpl.
    rewrite password_new_Model.
    destruct (String.eqb_spec (People.password d) pw) as [E|_]; [congruence |].
    reflexivity.
Qed.

Lemma registered_person_can_log_in_witness :
  Accounts.login
    (People.post Samples.no_fault People.Faculty Samples.db_alice Samples.bob).1
    (Accounts.mkLoginBody "s2" "pw" "faculty" None None)
  = (200,
     Accounts.LoggedIn (People.mkPerson "Bob" "s2" "pw" "556" None (Some "CSE") None)
       "faculty").
Proof.
  apply (registered_person_can_log_in
           Samples.no_fault People.Faculty Samples.db_alice Samples.bob);
    reflexivity.
Defined.

Section DeleteMany.

Import People Accounts.

Lemma deleteMany_spec (P : Person → Prop) `{!∀ p, Decision (P p)}
    (c : gmap string Person) :
  (∀ u p, (deleteMany P c).1 !! u = Some p ↔ c !! u = Some p ∧ ¬ P p)
  ∧ (∀ u p, (deleteMany P c).1 !! u = Some p → ¬ P p)
  ∧ (deleteMany P c).2 + size (deleteMany P c).1 = size c.
Proof.
  unfold deleteMany. simpl. split; [| split].
  - intros u p. apply (map_lookup_filter_Some (λ kv : string * Person, ¬ P kv.2)).
  - intros u p Hin.
    by apply (map_lookup_filter_Some (λ kv : string * Person, ¬ P kv.2))
      in Hin as [_ Hin].
  - rewrite <- map_size_disj_union
      by apply (map_disjoint_filter_complement (λ kv : string * Person, P kv.2)).
    by rewrite (map_filter_union_complement (λ kv : string * Person, P kv.2)).
Qed.

Lemma get_students_exact (db : Db) (qy qd : option string) :
  Js.truthy qy = true → Js.truthy qd = true →
  get_students db qy qd
  = filter (λ kv : string * Person, year kv.2 = qy ∧ department kv.2 = qd)
      (students db).
Proof.
  intros Hy Hd. unfold get_students. apply map_filter_ext. intros u p _. simpl.
  rewrite (field_matches_truthy _ _ Hy), (field_matches_truthy _ _ Hd). reflexivity.
Qed.

End DeleteMany.

(** X8. [DELETE /api/students/delete].  Without a year or without a department
    the answer is HTTP 400 and nothing is deleted.  With both, the students
    deleted are exactly those [GET /api/students] lists for the same year
    and department: [deletedCount] is their number, the same listing is
    empty afterwards, every other student is still there, no student
    appears, and faculty and admins are untouched. *)
Theorem delete_students_removes_the_listing
    (db : People.Db) (qy qd : option string) :
  (Js.truthy qy = false ∨ Js.truthy qd = false →
   Accounts.delete_students db qy qd
   = (db, People.mkResponse 400 (People.Refused "Year and department are required")))
  ∧ (Js.truthy qy = true → Js.truthy qd = true →
     let out := Accounts.delete_students db qy qd in
     out.2 = People.mkResponse 200
               (People.Deleted (size (Accounts.get_students db qy qd)))
     ∧ Accounts.get_students out.1 qy qd = ∅
     ∧ (∀ u p, People.students out.1 !! u = Some p
               ↔ People.students db !! u = Some p
                 ∧ ¬ (People.year p = qy ∧ People.department p = qd))
     ∧ size (Accounts.get_students db qy qd) + size (People.students out.1)
       = size (People.students db)
     ∧ People.faculty out.1 = People.faculty db
     ∧ People.admins out.1 = People.admins db).
Proof.
  split.
  - intros H. unfold Accounts.delete_students.
    destruct H as [-> | ->]; [reflexivity |].
    destruct (Js.truthy qy); reflexivity.
  - intros Hy Hd out. subst out. unfold Accounts.delete_students.
    rewrite Hy, Hd. simpl.
    rewrite (get_students_exact db qy qd Hy Hd).
    pose proof (deleteMany_spec
                  (λ p, People.year p = qy ∧ People.department p = qd)
                  (People.students db)) as (Hiff & Hnot & Hsize).
    unfold Accounts.deleteMany in *. simpl in *.
    split; [reflexivity |]. split.
    { rewrite (get_students_exact _ qy qd Hy Hd). simpl.
      apply map_empty_filter_2. intros u p Hp. simpl. by apply (Hnot u p). }
    split; [exact Hiff |]. split; [exact Hsize |]. split; reflexivity.
Qed.

(** X9. [DELETE /api/faculty/delete] and [DELETE /api/admin/delete]: without
    the department (the role) the answer is HTTP 400 and nothing is
    deleted; with it, exactly the faculty of that department (the admins
    of that role) are removed, [deletedCount] plus the number left is the
    number before, and the other two collections are untouched. *)
Theorem delete_faculty_and_admins_by_filter
    (db : People.Db) (q : option string) :
  (Js.truthy q = false →
   Accounts.delete_faculty db q
   = (db, People.mkResponse 400 (People.Refused "Department is required"))
   ∧ Accounts.delete_admins db q
     = (db, People.mkResponse 400 (People.Refused "Role is required")))
  ∧ (Js.truthy q = true →
     (∃ n, (Accounts.delete_faculty db q).2 = People.mkResponse 200 (People.Deleted n)
           ∧ n + size (People.faculty (Accounts.delete_faculty db q).1)
             = size (People.faculty db))
     ∧ (∀ u p, People.faculty (Accounts.delete_faculty db q).1 !! u = Some p
               ↔ People.faculty db !! u = Some p ∧ People.department p ≠ q)
     ∧ People.students (Accounts.delete_faculty db q).1 = People.students db
     ∧ People.admins (Accounts.delete_faculty db q).1 = People.admins db
     ∧ (∃ n, (Accounts.delete_admins db q).2 = People.mkResponse 200 (People.Deleted n)
             ∧ n + size (People.admins (Accounts.delete_admins db q).1)
               = size (People.admins db))
     ∧ (∀ u p, People.admins (Accounts.delete_admins db q).1 !! u = Some p
               ↔ People.admins db !! u = Some p ∧ People.role p ≠ q)
     ∧ People.students (Accounts.delete_admins db q).1 = People.students db
     ∧ People.faculty (Accounts.delete_admins db q).1 = People.faculty db).
Proof.
  split.
  - intros H. unfold Accounts.delete_faculty, Accounts.delete_admins.
    rewrite H. auto.
  - intros H. unfold Accounts.delete_faculty, Accounts.delete_admins.
    rewrite H. simpl.
    pose proof (deleteMany_spec (λ p, People.department p = q) (People.faculty db))
      as (Hf & _ & Hfs).
    pose proof (deleteMany_spec (λ p, People.role p = q) (People.admins db))
      as (Ha & _ & Has).
    unfold Accounts.deleteMany in *. simpl in *.
    split; [eexists; split; [reflexivity | exact Hfs] |].
    split; [exact Hf |]. split; [reflexivity |]. split; [reflexivity |].
    split; [eexists; split; [reflexivity | exact Has] |].
    split; [exact Ha |]. auto.
Qed.

(** On the sample class, deleting year 2 of CSE removes Alice and Bob and
    keeps Carol. *)
Example delete_students_sample :
  let out := Accounts.delete_students Samples.db_class (Some "2") (Some "CSE") in
  out.2 = People.mkResponse 200 (People.Deleted 2)
  ∧ People.students out.1 = {[ "s3" := Samples.carol ]}.
Proof. cbv zeta. split; vm_compute; reflexivity. Qed.

(** * Further properties of the content routes *)

Section UploadFacts.

Import Content.

Lemma gate_Next_inv (p p' : FilePart) :
  gate p = Next p' →
  p' = p ∧ allowedTypes_test (originalname p) = true
  ∧ (size_of p ≤ fileSize_limit)%N.
Proof.
  unfold gate. destruct (allowedTypes_test (originalname p)); simpl; [| discriminate].
  destruct (fileSize_limit <? size_of p)%N eqn:E; [discriminate |].
  intros [= <-]. apply N.ltb_ge in E. auto.
Qed.

Lemma allowed_name_not_empty (name : string) :
  allowedTypes_test name = true → name ≠ "".
Proof.
  intros H ->. apply allowedTypes_test_spec in H as (stem & ext & H & _).
  destruct stem; discriminate H.
Qed.





End UploadFacts.





(** ** What an upload leaves in place, and where the new record is listed *)

Section UploadFrame.

Import Content.

Variable uploadsDir : string.
Variable path_join : string → string → string.
Variable path_extname : string → string.

Lemma insert_fresh_keeps {A} (m : gmap N A) (x : A) (i : N) (y : A) :
  m !! i = Some y → <[fresh (dom m) := x]> m !! i = Some y.
Proof.
  intros H. rewrite lookup_insert_ne; [exact H |].
  intros E. rewrite <- E, fresh_id_is_new in H. discriminate.
Qed.

Lemma save_keeps (k : Kind) (w w' : World) (doc : Doc) (fault : option string) :
  save k w doc fault = inr w' →
  (∀ k' id d, collection k' w !! id = Some d → collection k' w' !! id = Some d)
  ∧ fsys w' = fsys w ∧ gridfs w' = gridfs w.
Proof.
  unfold save. destruct fault; [discriminate |]. intros [= <-].
  rewrite fsys_set_collection, gridfs_set_collection. split; [| auto].
  intros k' id d H. destruct (decide (k = k')) as [<-|Hne].
  - rewrite collection_set. by apply insert_fresh_keeps.
  - by rewrite collection_set_other.
Qed.

Lemma gridfs_upload_keeps (k : Kind) (w : World) (stamp : string) (req : UploadReq)
    (fault : option string) :
  let w' := (Gridfs.upload k w stamp req fault).1 in
  (∀ k' id d, collection k' w !! id = Some d → collection k' w' !! id = Some d)
  ∧ (∀ fid f, gridfs w !! fid = Some f → gridfs w' !! fid = Some f)
  ∧ fsys w' = fsys w.
Proof.
  unfold Gridfs.upload, Gridfs.upload_single.
  destruct (file_part req) as [p|]; [| simpl; auto].
  destruct (gate p) as [p'|e]; simpl; [| auto].
  destruct (save _ _ _ _) as [e|w2] eqn:E; simpl.
  - split; [| split; [| reflexivity]].
    + intros k' id d H. by rewrite collection_set_gridfs.
    + intros fid f H. by apply insert_fresh_keeps.
  - apply save_keeps in E as (Hc & Hf & Hg). rewrite Hf, Hg. simpl.
    split; [| split; [| reflexivity]].
    + intros k' id d H. apply Hc. by rewrite collection_set_gridfs.
    + intros fid f H. by apply insert_fresh_keeps.
Qed.

Lemma disk_upload_keeps (k : Kind) (w : World) (stamp : string) (req : UploadReq)
    (fault : option string) :
  let w' := (Disk.upload uploadsDir path_join path_extname k w stamp req fault).1 in
  (∀ k' id d, collection k' w !! id = Some d → collection k' w' !! id = Some d)
  ∧ (∀ path,
       (∀ p, file_part req = Some p →
             path ≠ path_join uploadsDir (stamp ++ path_extname (originalname p))) →
       fsys w' !! path = fsys w !! path)
  ∧ gridfs w' = gridfs w.
Proof.
  unfold Disk.upload, Disk.upload_single.
  destruct (file_part req) as [p|]; [| simpl; auto].
  destruct (gate p) as [p'|e] eqn:Hg; simpl; [| auto].
  apply gate_Next_inv in Hg as (-> & _ & _).
  destruct (save _ _ _ _) as [e|w2] eqn:E; simpl.
  - split; [| split; [| reflexivity]].
    + intros k' id d H. by rewrite collection_set_fsys.
    + intros path Hpath. apply lookup_insert_ne. intros E'.
      by apply (Hpath p eq_refl).
  - apply save_keeps in E as (Hc & Hf & Hgr). rewrite Hf, Hgr. simpl.
    split; [| split; [| reflexivity]].
    + intros k' id d H. apply Hc. by rewrite collection_set_fsys.
    + intros path Hpath. apply lookup_insert_ne. intros E'.
      by apply (Hpath p eq_refl).
Qed.

End UploadFrame.

(** X13. No upload, accepted or refused, on either server, and whatever the
    database does to its write, removes or changes a record of any
    collection.  On the GridFS server it also keeps every file of the
    bucket and the whole disk; on the disk server it keeps the bucket and
    every path of the disk other than the one it writes the new file to. *)
Theorem upload_keeps_what_is_stored
    (uploadsDir : string) (path_join : string → string → string)
    (path_extname : string → string)
    (k : Content.Kind) (w : Content.World) (stamp : string)
    (req : Content.UploadReq) (fault : option string) :
  let wg := (Gridfs.upload k w stamp req fault).1 in
  let wd := (Disk.upload uploadsDir path_join path_extname k w stamp req fault).1 in
  (∀ k' id d, Content.collection k' w !! id = Some d →
              Content.collection k' wg !! id = Some d
              ∧ Content.collection k' wd !! id = Some d)
  ∧ (∀ fid f, Content.gridfs w !! fid = Some f → Content.gridfs wg !! fid = Some f)
  ∧ Content.fsys wg = Content.fsys w
  ∧ Content.gridfs wd = Content.gridfs w
  ∧ (∀ path,
       (∀ p, Content.file_part req = Some p →
             path ≠ path_join uploadsDir
                      (stamp ++ path_extname (Content.originalname p))) →
       Content.fsys wd !! path = Content.fsys w !! path).
Proof.
  intros wg wd.
  destruct (gridfs_upload_keeps k w stamp req fault) as (Hg1 & Hg2 & Hg3).
  destruct (disk_upload_keeps uploadsDir path_join path_extname k w stamp req fault)
    as (Hd1 & Hd2 & Hd3).
  repeat split; auto.
Qed.

(** X14. A record uploaded with year [y] is listed by
    [GET /api/<kind>/year/y], also under a department filter that the
    uploaded department passes, on both servers; and everything that was
    listed before the upload is still listed after it. *)
Theorem upload_is_listed_by_year
    (uploadsDir : string) (path_join : string → string → string)
    (path_extname : string → string)
    (k : Content.Kind) (w : Content.World) (stamp : string)
    (req : Content.UploadReq) (p : Content.FilePart)
    (y : string) (qd : option string) :
  Content.file_part req = Some p →
  Content.gate p = Content.Next p →
  Content.body_year req = Some y →
  Query.field_matches qd (Content.body_department req) = true →
  let wg := (Gridfs.upload k w stamp req None).1 in
  let wd := (Disk.upload uploadsDir path_join path_extname k w stamp req None).1 in
  let id := fresh (dom (Content.collection k w)) in
  (∃ doc, Listing.by_year k wg y qd !! id = Some doc
          ∧ Content.title doc = Content.body_title req
          ∧ Content.originalFileName doc = Some (Content.originalname p))
  ∧ (∃ doc, Listing.by_year k wd y qd !! id = Some doc
            ∧ Content.title doc = Content.body_title req
            ∧ Content.originalFileName doc = Some (Content.originalname p))
  ∧ Listing.by_year k w y qd !! id = None
  ∧ (∀ id' d, Listing.by_year k w y qd !! id' = Some d →
              Listing.by_year k wg y qd !! id' = Some d
              ∧ Listing.by_year k wd y qd !! id' = Some d).
Proof.
  intros Hp Hg Hy Hd wg wd id.
  pose proof (gate_Next_inv p p Hg) as (_ & Hname & _).
  apply allowed_name_not_empty in Hname.
  split; [| split; [| split]].
  - subst wg. unfold Gridfs.upload, Gridfs.upload_single. rewrite Hp, Hg.
    unfold Gridfs.gridFsStorage, Content.save. simpl. eexists. split.
    + apply map_lookup_filter_Some. rewrite collection_set, collection_set_gridfs.
      split; [apply lookup_insert_eq |]. simpl. auto.
    + simpl. split; [reflexivity |].
      unfold Js.or_else. by rewrite (truthy_Some_ne _ Hname).
  - subst wd. unfold Disk.upload, Disk.upload_single. rewrite Hp, Hg.
    unfold Disk.diskStorage, Content.save. simpl. eexists. split.
    + apply map_lookup_filter_Some. rewrite collection_set, collection_set_fsys.
      split; [apply lookup_insert_eq |]. simpl. auto.
    + simpl. auto.
  - apply map_lookup_filter_None. left. apply fresh_id_is_new.
  - intros id' d H. apply map_lookup_filter_Some in H as [H HP].
    destruct (gridfs_upload_keeps k w stamp req None) as (Hg1 & _).
    destruct (disk_upload_keeps uploadsDir path_join path_extname k w stamp req None)
      as (Hd1 & _).
    split; apply map_lookup_filter_Some; split; auto.
Qed.

Lemma upload_is_listed_by_year_witness :
  ∃ doc,
    Listing.by_year Content.Material
      (Gridfs.upload Content.Material Samples.world_empty Samples.stamp
         (Samples.req_with (Some Samples.notes_txt)) None).1
      "2" (Some "CSE")
      !! fresh (dom (Content.collection Content.Material Samples.world_empty))
    = Some doc
    ∧ Content.title doc = Some "Week1"
    ∧ Content.originalFileName doc = Some "notes.TXT".
Proof.
  apply (upload_is_listed_by_year
           Samples.uploadsDir Samples.path_join Samples.path_extname
           Content.Material Samples.world_empty Samples.stamp
           (Samples.req_with (Some Samples.notes_txt)) Samples.notes_txt
           "2" (Some "CSE") eq_refl eq_refl eq_refl eq_refl).
Defined.


(** ** Deleting again, deleting what was just uploaded, and what a delete
    leaves in place *)

(** X15. Deleting a content record a second time is answered HTTP 404
    "<Kind> not found" and changes nothing, whatever the database would do
    to the write: on the GridFS server after any first delete that the
    database has carried out, on the disk server after such a first delete
    that did not hit a directory. *)
Theorem second_delete_is_not_found
    (k : Content.Kind) (w : Content.World) (oid : N) (m : Content.Doc)
    (fault : option string) :
  Content.collection k w !! oid = Some m →
  let id := Content.ObjectId oid in
  Gridfs.remove k (Gridfs.remove k w id None).1 id fault
    = ((Gridfs.remove k w id None).1,
       Content.Reply 404 (Content.Message false (Content.not_found_message k)))
  ∧ (Content.fsys w !! Content.str (Content.filePath m) ≠ Some Content.Directory →
     Disk.remove k (Disk.remove k w id None).1 id fault
       = ((Disk.remove k w id None).1,
          Content.Reply 404 (Content.Message false (Content.not_found_message k)))).
Proof.
  intros Hm id. subst id. split.
  - destruct (gridfs_remove_succeeds k w oid m Hm) as (w' & E & Hgone & _).
    rewrite E. simpl. by apply remove_not_found.
  - intros Hdir.
    destruct (disk_remove_succeeds k w oid m Hm Hdir) as (w' & E & Hgone & _).
    rewrite E. simpl. by apply remove_not_found.
Qed.

Lemma second_delete_is_not_found_witness :
  Gridfs.remove Content.Material
    (Gridfs.remove Content.Material Samples.world_two_kinds (Content.ObjectId 5) None).1
    (Content.ObjectId 5) None
  = ((Gridfs.remove Content.Material Samples.world_two_kinds (Content.ObjectId 5) None).1,
     Content.Reply 404 (Content.Message false "Material not found")).
Proof.
  exact (proj1 (second_delete_is_not_found
                  Content.Material Samples.world_two_kinds 5 Samples.doc_m None
                  eq_refl)).
Defined.

(** X16. On the GridFS server, deleting the record an accepted upload has
    just stored gives back the state before the upload, when the database
    carries out both writes: the record and the bucket file are both gone
    and nothing else has changed. *)
Theorem gridfs_upload_then_delete_restores
    (k : Content.Kind) (w : Content.World) (stamp : string)
    (req : Content.UploadReq) (p : Content.FilePart) :
  Content.file_part req = Some p →
  Content.gate p = Content.Next p →
  Gridfs.remove k (Gridfs.upload k w stamp req None).1
    (Content.ObjectId (fresh (dom (Content.collection k w)))) None
  = (w, Content.Reply 200 (Content.Message true (Content.deleted_message k))).
Proof.
  intros Hp Hg. destruct w as [m q u f g].
  unfold Gridfs.upload, Gridfs.upload_single. rewrite Hp, Hg.
  unfold Gridfs.gridFsStorage, Content.save, Gridfs.remove, Content.findById,
    Content.findByIdAndDelete, Gridfs.deleteGridFSFileById.
  destruct k; simpl; rewrite !lookup_insert_eq; simpl;
    rewrite !lookup_insert_eq; simpl;
    rewrite !delete_insert_id by apply fresh_id_is_new; reflexivity.
Qed.

Lemma gridfs_upload_then_delete_restores_witness :
  Gridfs.remove Content.Question
    (Gridfs.upload Content.Question Samples.world_two_kinds Samples.stamp
       (Samples.req_with (Some Samples.notes_txt)) None).1
    (Content.ObjectId
       (fresh (dom (Content.collection Content.Question Samples.world_two_kinds))))
    None
  = (Samples.world_two_kinds,
     Content.Reply 200 (Content.Message true "Question deleted successfully")).
Proof.
  apply (gridfs_upload_then_delete_restores
           Content.Question Samples.world_two_kinds Samples.stamp
           (Samples.req_with (Some Samples.notes_txt)) Samples.notes_txt
           eq_refl eq_refl).
Defined.

(** X17. On the disk server, deleting the record an accepted upload has just
    stored gives back the state before the upload, when the database
    carries out both writes, provided the upload wrote to a path that did
    not exist yet (and that path is not the empty string). *)
Theorem disk_upload_then_delete_restores
    (uploadsDir : string) (path_join : string → string → string)
    (path_extname : string → string)
    (k : Content.Kind) (w : Content.World) (stamp : string)
    (req : Content.UploadReq) (p : Content.FilePart) :
  Content.file_part req = Some p →
  Content.gate p = Content.Next p →
  let dest :=
    path_join uploadsDir (stamp ++ path_extname (Content.originalname p)) in
  dest ≠ "" →
  Content.fsys w !! dest = None →
  Disk.remove k (Disk.upload uploadsDir path_join path_extname k w stamp req None).1
    (Content.ObjectId (fresh (dom (Content.collection k w)))) None
  = (w, Content.Reply 200 (Content.Message true (Content.deleted_message k))).
Proof.
  intros Hp Hg dest Hdest Hnew. destruct w as [m q u f g]. simpl in Hnew.
  unfold Disk.upload, Disk.upload_single. rewrite Hp, Hg.
  unfold Disk.diskStorage, Content.save, Disk.remove, Content.findById,
    Content.findByIdAndDelete. fold dest.
  destruct k; simpl; rewrite !lookup_insert_eq;
    cbn [Content.filePath Content.str default];
    rewrite (truthy_Some_ne _ Hdest);
    unfold Content.existsSync, Content.unlinkSync; simpl;
    rewrite !lookup_insert_eq; simpl;
    rewrite !delete_insert_id by first [exact Hnew | apply fresh_id_is_new];
    reflexivity.
Qed.

Lemma disk_upload_then_delete_restores_witness :
  Disk.remove Content.Update
    (Disk.upload Samples.uploadsDir Samples.path_join Samples.path_extname
       Content.Update Samples.world_two_kinds Samples.stamp
       (Samples.req_with (Some Samples.notes_txt)) None).1
    (Content.ObjectId
       (fresh (dom (Content.collection Content.Update Samples.world_two_kinds))))
    None
  = (Samples.world_two_kinds,
     Content.Reply 200 (Content.Message true "Update deleted successfully")).
Proof.
  apply (disk_upload_then_delete_restores
           Samples.uploadsDir Samples.path_join Samples.path_extname
           Content.Update Samples.world_two_kinds Samples.stamp
           (Samples.req_with (Some Samples.notes_txt)) Samples.notes_txt
           eq_refl eq_refl).
  - discriminate.
  - reflexivity.
Defined.

(** X18. On the GridFS server the file of a record never makes its delete
    fail.  When the database deletes the record, the answer is success and
    the record is gone whether or not the bucket still held the file, the
    file is gone too, and a download or view that follows is answered
    HTTP 404 "File not found" unless another collection holds the same id.
    The delete fails only when the database refuses to delete the record:
    the answer is then HTTP 500 with the error of the database, every
    record is still there, and the file of the record is gone already. *)
Theorem gridfs_delete_is_best_effort
    (res_download :
       gmap string Content.FsEntry → string → option string → Content.Response)
    (k : Content.Kind) (w : Content.World) (oid : N) (m : Content.Doc) :
  Content.collection k w !! oid = Some m →
  let id := Content.ObjectId oid in
  let out := Gridfs.remove k w id None in
  out.2 = Content.Reply 200 (Content.Message true (Content.deleted_message k))
  ∧ Content.collection k out.1 !! oid = None
  ∧ (∀ fid, Content.fileId m = Some fid → Content.gridfs out.1 !! fid = None)
  ∧ ((∀ k', k' ≠ k → Content.collection k' w !! oid = None) →
     Gridfs.download res_download out.1 id
       = Content.Reply 404 (Content.Message false "File not found")
     ∧ Gridfs.view out.1 id
       = Content.Reply 404 (Content.Message false "File not found"))
  ∧ (∀ message,
       let out' := Gridfs.remove k w id (Some message) in
       out'.2 = Content.Reply 500 (Content.Failed message)
       ∧ (∀ k', Content.collection k' out'.1 = Content.collection k' w)
       ∧ (∀ fid, Content.fileId m = Some fid → Content.gridfs out'.1 !! fid = None)).
Proof.
  intros Hm id out. subst id.
  destruct (gridfs_remove_succeeds k w oid m Hm) as (w' & E & Hgone & Hsame & Hfile).
  subst out. rewrite E. simpl.
  split; [reflexivity |]. split; [exact Hgone |]. split; [exact Hfile |]. split.
  - intros Hothers.
    assert (Content.resolve w' (Content.ObjectId oid) = inr None) as Hr.
    { apply resolve_absent. intros k'.
      destruct (decide (k' = k)) as [->|Hne]; [exact Hgone |].
      rewrite Hsame by exact Hne. by apply Hothers. }
    unfold Gridfs.download, Gridfs.view. rewrite Hr. auto.
  - intros message. cbv zeta.
    destruct (gridfs_remove_fails_late k w oid m message Hm) as (w2 & E2 & Hc & Hf).
    rewrite E2. simpl. auto.
Qed.

Lemma gridfs_delete_is_best_effort_witness :
  (Gridfs.remove Content.Material Samples.world_both (Content.ObjectId 1) None).2
  = Content.Reply 200 (Content.Message true "Material deleted successfully")
  ∧ Content.collection Content.Material
      (Gridfs.remove Content.Material Samples.world_both (Content.ObjectId 1) None).1
      !! 1%N = None
  ∧ (Gridfs.remove Content.Material Samples.world_both (Content.ObjectId 1)
       (Some "write failed")).2
    = Content.Reply 500 (Content.Failed "write failed")
  ∧ Content.gridfs
      (Gridfs.remove Content.Material Samples.world_both (Content.ObjectId 1)
         (Some "write failed")).1 !! 7%N = None.
Proof.
  pose proof (gridfs_delete_is_best_effort Samples.res_download
                Content.Material Samples.world_both 1 Samples.doc_both eq_refl)
    as (H1 & H2 & _ & _ & H5).
  destruct (H5 "write failed") as (H6 & _ & H7).
  split; [exact H1 |]. split; [exact H2 |]. split; [exact H6 |].
  apply H7. reflexivity.
Defined.

(** X19. Deleting a content record on the GridFS server, whatever the
    database does to the write, touches nothing but that record and its
    own file: every other record of the collection and the other two
    collections are as before; a bucket file can only disappear if the
    deleted record carried its id; a path of the disk can only disappear
    if the deleted record had no bucket id and carried that path. *)
Theorem gridfs_delete_touches_only_its_record
    (k : Content.Kind) (w : Content.World) (id : Content.IdParam)
    (fault : option string) :
  let w' := (Gridfs.remove k w id fault).1 in
  (∀ oid', Content.ObjectId oid' ≠ id →
           Content.collection k w' !! oid' = Content.collection k w !! oid')
  ∧ (∀ k', k' ≠ k → Content.collection k' w' = Content.collection k' w)
  ∧ (∀ fid, Content.gridfs w' !! fid ≠ Content.gridfs w !! fid →
            ∃ oid m, id = Content.ObjectId oid
                     ∧ Content.collection k w !! oid = Some m
                     ∧ Content.fileId m = Some fid)
  ∧ (∀ path, Content.fsys w' !! path ≠ Content.fsys w !! path →
             ∃ oid m, id = Content.ObjectId oid
                      ∧ Content.collection k w !! oid = Some m
                      ∧ Content.fileId m = None
                      ∧ Content.filePath m = Some path).
Proof.
  intros w'. subst w'. destruct id as [oid|value].
  2: { repeat split; auto; intros ? H; by destruct H. }
  destruct (Content.collection k w !! oid) as [m|] eqn:Hm.
  2: { rewrite (proj1 (remove_not_found k w oid fault Hm)). simpl.
       repeat split; auto; intros ? H; by destruct H. }
  rewrite (gridfs_remove_found k w oid m fault Hm).
  destruct (file_gone_frame w m) as (Hc & _ & Hg & Hf).
  destruct fault as [message|]; simpl.
  - split; [intros; by rewrite Hc |]. split; [intros; apply Hc |]. split.
    + intros fid H. exists oid, m. auto.
    + intros path H. exists oid, m. destruct (Hf path H). auto.
  - rewrite gridfs_set_collection, fsys_set_collection.
    split; [| split; [| split]].
    + intros oid' Hne. rewrite collection_set, lookup_delete_ne by congruence.
      by rewrite Hc.
    + intros k' Hne. rewrite collection_set_other by congruence. apply Hc.
    + intros fid H. exists oid, m. auto.
    + intros path H. exists oid, m. destruct (Hf path H). auto.
Qed.


(** X21. A record with a bucket id is served and deleted without the disk: what
    download and view answer for it does not depend on what the disk
    holds, even when the record also carries a path, and deleting it leaves
    the disk as it is. *)
Theorem record_with_bucket_id_ignores_the_disk
    (res_download :
       gmap string Content.FsEntry → string → option string → Content.Response)
    (k : Content.Kind) (w : Content.World) (oid : N)
    (m : Content.Doc) (fid : N) (fault : option string) :
  Content.collection k w !! oid = Some m →
  Content.resolve w (Content.ObjectId oid) = inr (Some m) →
  Content.fileId m = Some fid →
  let id := Content.ObjectId oid in
  (∀ f, Gridfs.download res_download (Content.set_fsys f w) id
          = Gridfs.download res_download w id
        ∧ Gridfs.view (Content.set_fsys f w) id = Gridfs.view w id)
  ∧ Content.fsys (Gridfs.remove k w id fault).1 = Content.fsys w.
Proof.
  intros Hm Hr Hfid id. subst id. split.
  - intros f. unfold Gridfs.download, Gridfs.view.
    assert (Content.resolve (Content.set_fsys f w) (Content.ObjectId oid)
            = Content.resolve w (Content.ObjectId oid)) as -> by reflexivity.
    rewrite Hr, Hfid. auto.
  - rewrite (gridfs_remove_found k w oid m fault Hm).
    destruct (file_gone_frame w m) as (_ & Hg & _).
    destruct (Hg fid Hfid) as [_ Hfs].
    destruct fault; simpl; [exact Hfs |].
    by rewrite fsys_set_collection.
Qed.

Lemma record_with_bucket_id_ignores_the_disk_witness :
  Content.fsys
    (Gridfs.remove Content.Material Samples.world_both (Content.ObjectId 1) None).1
  = Content.fsys Samples.world_both.
Proof.
  exact (proj2 (record_with_bucket_id_ignores_the_disk Samples.res_download
                  Content.Material Samples.world_both 1 Samples.doc_both 7 None
                  eq_refl eq_refl eq_refl)).
Defined.

(** ** Only the last extension of a file name counts *)

Section LastExtension.

Import Content Observe.

Lemma no_dot_app_dot (a b : string) : no_dot (a ++ "." ++ b) = false.
Proof.
  induction a as [|c a IH]; [reflexivity |].
  rewrite append_cons. cbn [no_dot]. rewrite IH. apply andb_false_r.
Qed.

Lemma to_lower_is_dot (c : ascii) :
  Ascii.eqb (to_lower c) "."%char = Ascii.eqb c "."%char.
Proof. destruct c as [[] [] [] [] [] [] [] []]; vm_compute; reflexivity. Qed.

Lemma no_dot_lowercase (s : string) : no_dot (lowercase s) = no_dot s.
Proof.
  induction s as [|c s IH]; [reflexivity |].
  cbn [lowercase no_dot]. by rewrite to_lower_is_dot, IH.
Qed.

Lemma allowed_extensions_no_dot (e : string) :
  In e allowed_extensions → no_dot e = true.
Proof.
  intros H. assert (forallb no_dot allowed_extensions = true) as Hall by reflexivity.
  rewrite forallb_forall in Hall. by apply Hall.
Qed.

Lemma last_dot_unique (s s' e e' : string) :
  no_dot e = true → no_dot e' = true →
  s ++ "." ++ e = s' ++ "." ++ e' → e = e'.
Proof.
  intros He He'. revert s'. induction s as [|c s IH]; intros s' H.
  - destruct s' as [|c' s'].
    + rewrite !append_nil_l in H. injection H as H.
      by rewrite !append_nil_l in H.
    + rewrite append_nil_l, append_cons in H. injection H as _ H.
      rewrite append_nil_l in H. rewrite H, no_dot_app_dot in He. discriminate.
  - destruct s' as [|c' s'].
    + rewrite append_nil_l, append_cons in H. injection H as _ H.
      rewrite append_nil_l in H. rewrite <- H, no_dot_app_dot in He'. discriminate.
    + rewrite !append_cons in H. injection H as _ H. by apply (IH s').
Qed.

End LastExtension.

(** X22. The file filter looks at what follows the last dot of the name and at
    nothing else: a name [stem.ext] whose [ext] has no dot passes exactly
    when [ext], in lower case, is one of the sixteen extensions, whatever
    [stem] is (so [a.pdf.exe] is refused and [a.exe.pdf] passes), and a
    name without a dot never passes. *)
Theorem only_the_last_extension_counts (stem ext : string) :
  Observe.no_dot ext = true →
  (Content.allowedTypes_test (stem ++ "." ++ ext) = true
   ↔ In (Content.lowercase ext) Content.allowed_extensions)
  ∧ Content.allowedTypes_test ext = false.
Proof.
  intros Hext. split.
  - rewrite allowedTypes_test_spec. split.
    + intros (stem' & ext' & E & Hin).
      assert (Observe.no_dot ext' = true) as Hext'.
      { rewrite <- no_dot_lowercase. by apply allowed_extensions_no_dot. }
      by rewrite (last_dot_unique _ _ _ _ Hext Hext' E).
    + intros Hin. eauto.
  - destruct (Content.allowedTypes_test ext) eqn:E; [| reflexivity].
    apply allowedTypes_test_spec in E as (s & e & -> & _).
    rewrite no_dot_app_dot in Hext. discriminate.
Qed.

Lemma only_the_last_extension_counts_witness :
  Content.allowedTypes_test "report.pdf.exe" = false
  ∧ Content.allowedTypes_test "report.exe.PDF" = true
  ∧ Content.allowedTypes_test "pdf" = false.
Proof.
  pose proof (only_the_last_extension_counts "report.pdf" "exe" eq_refl) as [H1 _].
  pose proof (only_the_last_extension_counts "report.exe" "PDF" eq_refl) as [H2 _].
  pose proof (only_the_last_extension_counts "" "pdf" eq_refl) as [_ H3].
  split; [| split; [| exact H3]].
  - destruct (Content.allowedTypes_test "report.pdf.exe") eqn:E; [| reflexivity].
    apply H1 in E. vm_compute in E. intuition discriminate.
  - apply H2. vm_compute. tauto.
Defined.

(** * Attendance *)

Section AttendanceFacts.

Import Attendance.

Variable fault : Entry → option string.

Lemma post_loop_ok (pre : list Entry) :
  (∀ r, r ∈ pre → fault r = None) →
  ∀ c tail rs,
    post_loop fault c (pre ++ tail)%list rs
    = post_loop fault (c ++ pre)%list tail (rs ++ pre)%list.
Proof.
  induction pre as [|x pre IH]; intros Hok c tail rs.
  - by rewrite !app_nil_r.
  - simpl. rewrite (Hok x) by (by left).
    rewrite IH by (intros; apply Hok; by right).
    by rewrite <- !app_assoc.
Qed.

End AttendanceFacts.

(** X23. [POST /api/attendance] is not all-or-nothing.  When no save fails,
    every record is appended, in order, and returned.  When the save of
    some record fails, the answer is HTTP 500 with that error, the records
    before it stay written, and it and the records after it are not. *)
Theorem attendance_batch_stops_at_first_failure
    (fault : Attendance.Entry → option string)
    (collection pre rest : list Attendance.Entry)
    (bad : Attendance.Entry) (m : string) :
  (∀ r, r ∈ pre → fault r = None) →
  Attendance.post fault collection pre
    = ((collection ++ pre)%list, (200, Attendance.Recorded pre))
  ∧ (fault bad = Some m →
     Attendance.post fault collection (pre ++ bad :: rest)%list
     = ((collection ++ pre)%list, (500, Attendance.Failed m))).
Proof.
  intros Hok. unfold Attendance.post. split.
  - rewrite <- (app_nil_r pre) at 1.
    rewrite (post_loop_ok fault pre Hok). reflexivity.
  - intros Hbad. rewrite (post_loop_ok fault pre Hok). simpl.
    rewrite Hbad. reflexivity.
Qed.

Lemma attendance_batch_stops_at_first_failure_witness :
  Attendance.post Samples.fault_absent [] [Samples.mark_present; Samples.mark_absent]
  = ([Samples.mark_present], (500, Attendance.Failed "Cast to date failed")).
Proof.
  apply (attendance_batch_stops_at_first_failure
           Samples.fault_absent [] [Samples.mark_present] []
           Samples.mark_absent "Cast to date failed").
  - intros r Hr. apply list_elem_of_singleton in Hr as ->. reflexivity.
  - reflexivity.
Defined.

(** * Requests that fail *)

(** X24. A content request that is not answered HTTP 200 leaves every
    record as it was, on either server, but not always the files.  The
    state changes under a failed request in two cases only: an upload
    whose file passes the gate and whose record the database refuses,
    which is answered HTTP 500 and leaves the file stored with no record
    for it; and a delete of an existing record that the database refuses,
    which is answered HTTP 500 after the file of the record has been
    removed.  Download and view never change the state. *)
Theorem failed_content_request_keeps_the_records
    (uploadsDir : string) (path_join : string → string → string)
    (path_extname : string → string)
    (res_download :
       gmap string Content.FsEntry → string → option string → Content.Response)
    (w : Content.World) (op : Content.Op) :
  let g := Gridfs.step res_download w op in
  let d := Disk.step uploadsDir path_join path_extname res_download w op in
  let upload_refused_late :=
    ∃ k stamp req p message,
      op = Content.Upload k stamp req (Some message)
      ∧ Content.file_part req = Some p ∧ Content.gate p = Content.Next p in
  let delete_refused_late :=
    ∃ k oid m message,
      op = Content.Remove k (Content.ObjectId oid) (Some message)
      ∧ Content.collection k w !! oid = Some m in
  (Content.status_of g.2 ≠ Some 200 →
   (∀ k, Content.collection k g.1 = Content.collection k w)
   ∧ (g.1 = w ∨ upload_refused_late ∨ delete_refused_late))
  ∧ (Content.status_of d.2 ≠ Some 200 →
     (∀ k, Content.collection k d.1 = Content.collection k w)
     ∧ (d.1 = w ∨ upload_refused_late ∨ delete_refused_late))
  ∧ (∀ k stamp req p message,
       op = Content.Upload k stamp req (Some message) →
       Content.file_part req = Some p → Content.gate p = Content.Next p →
       g.2 = Content.Reply 500 (Content.Failed message)
       ∧ Content.gridfs w !! fresh (dom (Content.gridfs w)) = None
       ∧ Content.grid_bytes <$> Content.gridfs g.1 !! fresh (dom (Content.gridfs w))
         = Some (Content.content p)
       ∧ d.2 = Content.Reply 500 (Content.Failed message)
       ∧ Content.fsys d.1
           !! path_join uploadsDir (stamp ++ path_extname (Content.originalname p))
         = Some (Content.File (Content.content p)))
  ∧ (∀ k oid m message,
       op = Content.Remove k (Content.ObjectId oid) (Some message) →
       Content.collection k w !! oid = Some m →
       g.2 = Content.Reply 500 (Content.Failed message)
       ∧ Content.collection k g.1 !! oid = Some m
       ∧ (∀ fid, Content.fileId m = Some fid → Content.gridfs g.1 !! fid = None)
       ∧ (Content.fsys w !! Content.str (Content.filePath m) ≠ Some Content.Directory →
          d.2 = Content.Reply 500 (Content.Failed message)
          ∧ Content.collection k d.1 !! oid = Some m
          ∧ (Js.truthy (Content.filePath m) = true →
             Content.fsys d.1 !! Content.str (Content.filePath m) = None)))
  ∧ (∀ id, op = Content.Download id ∨ op = Content.View id → g.1 = w ∧ d.1 = w).
Proof.
  intros g d up_late del_late. subst g d up_late del_late.
  split; [| split; [| split; [| split]]].
  - destruct op as [k stamp req fault | id | id | k id fault]; simpl;
      try (intros _; split; [reflexivity | by left]).
    + unfold Gridfs.upload, Gridfs.upload_single.
      destruct (Content.file_part req) as [p|] eqn:Hp;
        [| intros _; split; [reflexivity | by left]].
      destruct (Content.gate p) as [p'|e] eqn:Hg; simpl;
        [| intros _; split; [reflexivity | by left]].
      apply gate_Next_inv in Hg as Hp'. destruct Hp' as (-> & _ & _).
      destruct fault as [message|]; simpl; [| congruence].
      intros _. split; [intros k'; apply collection_set_gridfs |].
      right. left. exists k, stamp, req, p, message. auto.
    + destruct id as [oid|value]; [| intros _; split; [reflexivity | by left]].
      destruct (Content.collection k w !! oid) as [m|] eqn:Hm.
      * rewrite (gridfs_remove_found k w oid m fault Hm).
        destruct fault as [message|]; simpl; [| congruence].
        intros _. split; [apply file_gone_frame |].
        right. right. exists k, oid, m, message. auto.
      * rewrite (proj1 (remove_not_found k w oid fault Hm)).
        intros _. split; [reflexivity | by left].
  - destruct op as [k stamp req fault | id | id | k id fault]; simpl;
      try (intros _; split; [reflexivity | by left]).
    + unfold Disk.upload, Disk.upload_single.
      destruct (Content.file_part req) as [p|] eqn:Hp;
        [| intros _; split; [reflexivity | by left]].
      destruct (Content.gate p) as [p'|e] eqn:Hg; simpl;
        [| intros _; split; [reflexivity | by left]].
      apply gate_Next_inv in Hg as Hp'. destruct Hp' as (-> & _ & _).
      destruct fault as [message|]; simpl; [| congruence].
      intros _. split; [intros k'; apply collection_set_fsys |].
      right. left. exists k, stamp, req, p, message. auto.
    + destruct id as [oid|value]; [| intros _; split; [reflexivity | by left]].
      destruct (Content.collection k w !! oid) as [m|] eqn:Hm.
      * rewrite (disk_remove_found k w oid m fault Hm).
        destruct (Js.truthy (Content.filePath m)
                  && Content.existsSync (Content.fsys w)
                       (Content.str (Content.filePath m)));
          [destruct (Content.unlinkSync _ _) as [e|fs'] |];
          destruct fault as [message|]; simpl; try congruence;
          intros _; (split; [first [reflexivity | intros k'; apply collection_set_fsys] |]);
          first [by left | right; right; exists k, oid, m, message; auto].
      * rewrite (proj2 (remove_not_found k w oid fault Hm)).
        intros _. split; [reflexivity | by left].
  - intros k stamp req p message -> Hp Hg. simpl.
    rewrite (gridfs_upload_orphan k w stamp req p message Hp Hg).
    rewrite (disk_upload_orphan uploadsDir path_join path_extname
               k w stamp req p message Hp Hg).
    simpl. rewrite !lookup_insert_eq.
    repeat split. apply fresh_id_is_new.
  - intros k oid m message -> Hm. simpl.
    destruct (gridfs_remove_fails_late k w oid m message Hm) as (w' & E & Hc & Hf).
    rewrite E. simpl. rewrite Hc.
    split; [reflexivity |]. split; [exact Hm |]. split; [exact Hf |].
    intros Hdir. rewrite (disk_remove_found k w oid m _ Hm).
    unfold Content.existsSync, Content.unlinkSync.
    destruct (Js.truthy (Content.filePath m)) eqn:Ht; simpl.
    + destruct (Content.fsys w !! Content.str (Content.filePath m))
        as [[bytes|]|] eqn:Efs; simpl.
      * rewrite collection_set_fsys, lookup_delete_eq. auto.
      * congruence.
      * auto.
    + split; [reflexivity |]. split; [exact Hm | discriminate].
  - intros id [-> | ->]; split; reflexivity.
Qed.

(** X5. Inserting or deleting one person touches one record: the collections
    of the other two roles and every other [userId] of the same role are
    as before, and when the answer is not a success the whole database is
    as before. *)
Theorem person_routes_touch_one_record
    (fault : People.Person → option string) (r : People.Role)
    (db : People.Db) (d : People.Person) (q : option string) :
  let ins := People.post fault r db d in
  let del := People.delete_individual r db q in
  (∀ r', r ≠ r' →
     People.collection r' ins.1 = People.collection r' db
     ∧ People.collection r' del.1 = People.collection r' db)
  ∧ (∀ u, u ≠ People.userId d →
       People.collection r ins.1 !! u = People.collection r db !! u)
  ∧ (∀ u, Some u ≠ q →
       People.collection r del.1 !! u = People.collection r db !! u)
  ∧ (People.success (People.body ins.2) = false → ins.1 = db)
  ∧ (People.success (People.body del.2) = false → del.1 = db).
Proof.
  intros ins del. subst ins del.
  unfold People.post, People.save, People.delete_individual, People.deleteOne.
  cbv zeta. rewrite userId_new_Model.
  split; [| split; [| split; [| split]]].
  - intros r' Hne. split.
    + destruct (fault _); [reflexivity |].
      destruct (People.collection r db !! People.userId d); [reflexivity |].
      by apply people_collection_set_other.
    + destruct (Js.truthy q); simpl; [| reflexivity].
      destruct (People.collection r db !! default "" q); simpl;
        by apply people_collection_set_other.
  - intros u Hu. destruct (fault _); [reflexivity |].
    destruct (People.collection r db !! People.userId d); [reflexivity |].
    simpl. rewrite people_collection_set. by apply lookup_insert_ne.
  - intros u Hu. destruct (Js.truthy q) eqn:Ht; simpl; [| reflexivity].
    destruct q as [u'|]; [| discriminate Ht]. simpl.
    destruct (People.collection r db !! u') eqn:E; simpl;
      rewrite people_collection_set; [| reflexivity].
    apply lookup_delete_ne. congruence.
  - destruct (fault _); [reflexivity |].
    destruct (People.collection r db !! People.userId d); [reflexivity |].
    discriminate.
  - destruct (Js.truthy q); simpl; [| reflexivity].
    destruct (People.collection r db !! default "" q); simpl; [discriminate |].
    intros _. apply people_set_collection_same.
Qed.

